(** * better-dom: a shallow embedding of [src/better-dom.js]

    The library wraps host DOM nodes in [DOMNode] / [DOMElement] objects and
    offers selector matching, event binding, property hooks, a data store and
    an insertion watcher.  The development below embeds the functions of
    [better-dom.js] as Rocq functions and proves or refutes statements about
    them.

    Conventions of the embedding
    - JavaScript strings are [string]; [toLowerCase] is the ASCII lowering
      (selectors of the quick grammars are ASCII by their regular
      expressions).
    - Plain objects used as string-keyed tables ([propHooks], [eventHooks],
      [_data], [DOM._watchers], a node's attributes) are [gmap string _]
      for their own properties.  What [_data] and [eventHooks] inherit
      from [Object.prototype] is modelled where the code reads it
      ([Data.inherited], [Events.inherited_hook_name]); the other tables
      are modelled on keys that name no member of [Object.prototype].
    - A thrown value is an [Exn]; a call that may throw returns a
      [Completion].
    - Host primitives that the file calls but does not define
      ([querySelectorAll], [innerHTML], [matchesSelector], ...) are either
      Section variables or small models named [host_...] / [native_...]. *)

From Stdlib Require Import String Ascii ZArith List Bool Lia.
From Stdlib Require Import Numbers.DecimalString.
From stdpp Require Import base option list gmap strings.

Local Open Scope string_scope.
Local Open Scope Z_scope.

Set Warnings "-register-all".

(* ===================================================================== *)
(** ** JavaScript values, completions and the string primitives used     *)
(* ===================================================================== *)

Module JS.

(** Values that reach the public methods.  Functions are compared by
    identity, so a function value is its identity; [VObj] is a plain
    object literal with its own enumerable keys in insertion order. *)
Inductive Value : Type :=
| VUndefined
| VNull
| VBool (b : bool)
| VNum (n : Z)
| VStr (s : string)
| VFun (f : nat)
| VObj (props : list (string * Value)).

(** [typeof v] *)
Definition typeof (v : Value) : string :=
  match v with
  | VUndefined => "undefined"
  | VNull => "object"
  | VBool _ => "boolean"
  | VNum _ => "number"
  | VStr _ => "string"
  | VFun _ => "function"
  | VObj _ => "object"
  end.

(** [v === undefined] *)
Definition is_undefined (v : Value) : bool :=
  match v with VUndefined => true | _ => false end.

(** [ToBoolean v], the test of [if (v)], [!v], [a || b]. *)
Definition truthy (v : Value) : bool :=
  match v with
  | VUndefined | VNull => false
  | VBool b => b
  | VNum n => negb (n =? 0)
  | VStr s => negb (String.eqb s EmptyString)
  | VFun _ | VObj _ => true
  end.

(** [VFun f === v] *)
Definition same_function (f : nat) (v : Value) : bool :=
  match v with VFun g => Nat.eqb f g | _ => false end.

(** What a [throw] carries: the string built by [makeError], a [TypeError]
    raised by the engine (calling [undefined], [Object.keys(null)]), or an
    error raised by a host primitive. *)
Inductive Exn : Type :=
| Thrown (message : string)
| TypeError
| HostError (code : nat).

Inductive Completion (A : Type) : Type :=
| Normal (a : A)
| Throw (e : Exn).
Arguments Normal {A} a.
Arguments Throw {A} e.

Definition is_throw {A} (c : Completion A) : bool :=
  match c with Throw _ => true | Normal _ => false end.

(** *** Characters *)

Definition code (c : ascii) : N := N_of_ascii c.

Definition is_digit (c : ascii) : bool := ((48 <=? code c) && (code c <=? 57))%N.
Definition is_upper (c : ascii) : bool := ((65 <=? code c) && (code c <=? 90))%N.
Definition is_lower (c : ascii) : bool := ((97 <=? code c) && (code c <=? 122))%N.

(** [\w] *)
Definition is_word (c : ascii) : bool :=
  is_digit c || is_upper c || is_lower c || (code c =? 95)%N.

(** [[\w\-]] *)
Definition is_word_dash (c : ascii) : bool := is_word c || (code c =? 45)%N.

Definition lower_char (c : ascii) : ascii :=
  if is_upper c then ascii_of_N (code c + 32) else c.

(** *** Strings *)

Fixpoint toLowerCase (s : string) : string :=
  match s with
  | EmptyString => EmptyString
  | String c s' => String (lower_char c) (toLowerCase s')
  end.

(** [s.indexOf(sub)]: position of the first occurrence, [-1] when none. *)
Fixpoint indexOf_from (i : Z) (s sub : string) : Z :=
  if String.prefix sub s then i
  else match s with
       | EmptyString => -1
       | String _ s' => indexOf_from (i + 1) s' sub
       end.

Definition indexOf (s sub : string) : Z := indexOf_from 0 s sub.

(** [~n], the bitwise complement: [~(-1) = 0]. *)
Definition bitnot (n : Z) : Z := Z.lnot n.

(** [sub] occurs in [s]. *)
Definition occurs_in (sub s : string) : Prop :=
  exists pre post, s = pre +:+ sub +:+ post.

(** [!!~s.indexOf(sub)] *)
Definition found (s sub : string) : bool := negb (bitnot (indexOf s sub) =? 0).

(** [s.split(sep)] for a one-character separator: the pieces between the
    separators, so a string without separator (the empty one too) gives
    one piece. *)
Fixpoint split (sep : ascii) (s : string) : list string :=
  match s with
  | EmptyString => [EmptyString]
  | String c s' =>
      if Ascii.eqb c sep then EmptyString :: split sep s'
      else match split sep s' with
           | piece :: rest => String c piece :: rest
           | [] => [String c EmptyString]
           end
  end.

(** Whether the character occurs in the string. *)
Fixpoint contains_char (c : ascii) (s : string) : bool :=
  match s with
  | EmptyString => false
  | String d s' => Ascii.eqb d c || contains_char c s'
  end.

(** All characters of the string satisfy the test. *)
Fixpoint all_chars (p : ascii -> bool) (s : string) : bool :=
  match s with
  | EmptyString => true
  | String c s' => p c && all_chars p s'
  end.

(** [list.join(sep)] *)
Fixpoint join (sep : string) (l : list string) : string :=
  match l with
  | [] => EmptyString
  | [x] => x
  | x :: rest => x +:+ sep +:+ join sep rest
  end.

(** [s.replace(pat, rep)] with a string pattern: the first occurrence only. *)
Fixpoint drop_chars (n : nat) (s : string) : string :=
  match n, s with
  | O, _ => s
  | S n', String _ s' => drop_chars n' s'
  | S _, EmptyString => EmptyString
  end.

Fixpoint replace_first (pat rep s : string) : string :=
  if String.prefix pat s then rep +:+ drop_chars (String.length pat) s
  else match s with
       | EmptyString => EmptyString
       | String c s' => String c (replace_first pat rep s')
       end.

(** Longest prefix of characters satisfying [p], and the rest. *)
Fixpoint span (p : ascii -> bool) (s : string) : string * string :=
  match s with
  | EmptyString => (EmptyString, EmptyString)
  | String c s' =>
      if p c then let '(a, b) := span p s' in (String c a, b)
      else (EmptyString, s)
  end.

(** Decimal rendering of a number, as string concatenation does it. *)
Definition show_N (n : N) : string := NilEmpty.string_of_uint (N.to_uint n).

(** [_.forEach(list, callback)] with a callback that may throw: the state is
    threaded through the calls and the first throw ends the loop, keeping
    the state reached so far. *)
Fixpoint forEach {A S} (l : list A) (body : A -> S -> Completion unit * S) (st : S)
  : Completion unit * S :=
  match l with
  | [] => (Normal tt, st)
  | x :: rest =>
      match body x st with
      | (Normal _, st') => forEach rest body st'
      | (Throw e, st') => (Throw e, st')
      end
  end.

End JS.

Import JS.

(** [makeError(method, type)] of the source. *)
Definition makeError_typed (method type : string) : string :=
  "Error: " +:+ type +:+ "." +:+ method
  +:+ " was called with illegal arguments. Check http://chemerisuk.github.io/better-dom/"
  +:+ type +:+ ".html#" +:+ method +:+ " to verify the function call".

Definition makeError (method : string) : string := makeError_typed method "DOMElement".

(* ===================================================================== *)
(** ** Host elements                                                      *)
(* ===================================================================== *)

(** The part of a host element that the wrapper methods read and write:
    the node name and the attribute table.  [id] and [className] reflect
    the [id] and [class] attributes, as the DOM has it. *)
Record Element : Type := mkElement {
  nodeName : string;
  attributes : gmap string string
}.

Definition getAttribute (el : Element) (name : string) : option string :=
  attributes el !! name.

Definition hasAttribute (el : Element) (name : string) : bool :=
  bool_decide (is_Some (attributes el !! name)).

Definition setAttribute (el : Element) (name value : string) : Element :=
  mkElement (nodeName el) (<[name := value]> (attributes el)).

Definition removeAttribute (el : Element) (name : string) : Element :=
  mkElement (nodeName el) (delete name (attributes el)).

Definition el_id (el : Element) : string := default EmptyString (getAttribute el "id").

Definition className (el : Element) : string := default EmptyString (getAttribute el "class").


(* ===================================================================== *)
(** ** Wrapper objects and the constructors [DOMNode], [DOMElement],
       [DOMEvent]                                                         *)
(* ===================================================================== *)

(** An entry of [this._events].  The handler is the closure built by
    [createEventHandler]; closures are compared by identity, so a handler
    carries the identity it got when it was created, next to what it
    closes over (the callback and the selector).  [h_custom] is the event
    name the IE8 wrapper of a custom event filters on ([e.srcUrn === event]). *)
Record Handler : Type := mkHandler {
  h_id : nat;
  h_callback : Value;
  h_selector : Value;
  h_custom : option string
}.

Record EventEntry : Type := mkEntry {
  e_name : string;
  e_callback : Value;
  e_capturing : bool;
  e_handler : Handler
}.

Module Wrap.

Inductive Kind : Type := KNode | KElement | KNullNode | KNullElement | KEvent.

(** The own fields the constructors write: [this._node], [this._data],
    [this._events] (a [DOMEvent] keeps its native event in [_node]). *)
Record Obj : Type := mkObj {
  kind : Kind;
  _node : option nat;
  _data : gmap string Value;
  _events : list EventEntry
}.

(** The heap of wrapper objects, and the [__dom__] expando of every host
    node and native event (absent unless somebody assigned it). *)
Record World : Type := mkWorld {
  heap : list Obj;
  node_dom : gmap nat nat;
  event_dom : gmap nat nat
}.

(** [new C(...)]: a fresh object, whose reference is its heap position. *)
Definition alloc (o : Obj) (w : World) : nat * World :=
  (length (heap w), mkWorld (heap w ++ [o]) (node_dom w) (event_dom w)).

(** [new DOMNode(node)]: lines 61-63. *)
Definition new_DOMNode (node : option nat) : Obj := mkObj KNode node ∅ [].

(** [new DOMElement(element)]: [DOMNode.call(this, element)]. *)
Definition new_DOMElement (element : option nat) : Obj := mkObj KElement element ∅ [].

(** [new DOMNullNode()], [new DOMNullElement()]: [this._node = null]. *)
Definition new_DOMNullNode : Obj := mkObj KNullNode None ∅ [].
Definition new_DOMNullElement : Obj := mkObj KNullElement None ∅ [].

(** [DOMNode(node)] called as a function:
    [node ? node.__dom__ || new DOMNode(node) : new DOMNullNode()]. *)
Definition DOMNode (node : option nat) (w : World) : nat * World :=
  match node with
  | Some n =>
      match node_dom w !! n with
      | Some r => (r, w)
      | None => alloc (new_DOMNode (Some n)) w
      end
  | None => alloc new_DOMNullNode w
  end.

(** [DOMElement(element)] called as a function:
    [element ? element.__dom__ || new DOMElement(element) : new DOMNullElement()]. *)
Definition DOMElement (element : option nat) (w : World) : nat * World :=
  match element with
  | Some n =>
      match node_dom w !! n with
      | Some r => (r, w)
      | None => alloc (new_DOMElement (Some n)) w
      end
  | None => alloc new_DOMNullElement w
  end.


Definition empty_world : World := mkWorld [] ∅ ∅.

End Wrap.

(* ===================================================================== *)
(** ** SelectorMatcher                                                    *)
(* ===================================================================== *)

Module Selector.

(** The captures of [rquickIs]: an optional run of word characters (the
    tag), then optionally [#] and an identifier, then optionally an
    identifier in square brackets, then optionally a dot and an
    identifier, and nothing else.  An identifier is a non-empty run of
    word characters and dashes.  [quick[1]] is a string (empty when the
    selector names no tag), [quick[2]], [quick[3]], [quick[4]] are
    [undefined] or non-empty. *)
Record Quick : Type := mkQuick {
  q_tag : string;
  q_id : option string;
  q_attr : option string;
  q_class : option string
}.

(** One optional group (lead character, identifier, closing character if
    any) at the head of [s]: [None] when
    the expression cannot match from here (the lead character is there but
    the group is ill-formed, so neither the group nor what follows it
    matches), otherwise the capture and the rest. *)
Definition opt_group (lead : ascii) (close : option ascii) (s : string)
  : option (option string * string) :=
  match s with
  | String c s' =>
      if Ascii.eqb c lead then
        let '(m, rest) := span is_word_dash s' in
        match m with
        | EmptyString => None
        | _ =>
            match close with
            | None => Some (Some m, rest)
            | Some cl =>
                match rest with
                | String c2 rest' => if Ascii.eqb c2 cl then Some (Some m, rest') else None
                | EmptyString => None
                end
            end
        end
      else Some (None, s)
  | EmptyString => Some (None, s)
  end.

(** [rquickIs.exec(selector)] *)
Definition rquickIs_exec (selector : string) : option Quick :=
  let '(tag, r1) := span is_word selector in
  match opt_group "#" None r1 with
  | None => None
  | Some (id, r2) =>
      match opt_group "[" (Some "]"%char) r2 with
      | None => None
      | Some (attr, r3) =>
          match opt_group "." None r3 with
          | Some (cls, EmptyString) => Some (mkQuick tag id attr cls)
          | _ => None
          end
      end
  end.

Record Matcher : Type := mkMatcher {
  selector : string;
  quickOnly : bool;
  quick : option Quick
}.

(** The constructor [ctr(selector, quickOnly)]: lower-cases [quick[1]] and
    pads [quick[4]] with spaces; throws when [quickOnly] and the selector
    is not quick. *)
Definition ctr (sel : string) (qo : bool) : Completion Matcher :=
  match rquickIs_exec sel with
  | Some q =>
      Normal (mkMatcher sel qo
        (Some (mkQuick (toLowerCase (q_tag q)) (q_id q) (q_attr q)
                 (option_map (fun c => " " +:+ c +:+ " ") (q_class q)))))
  | None =>
      if qo then Throw (Thrown (makeError "quick"))
      else Normal (mkMatcher sel qo None)
  end.

(** [!s] for a string [s]. *)
Definition str_falsy (s : string) : bool := String.eqb s EmptyString.

Section Test.
(** The host's selector-matching primitive,
    [el[matchesProp](selector)] or [matches(el, selector)]. *)
Variable native : Element -> string -> bool.

(** [ctr.prototype.test] *)
Definition test (m : Matcher) (el : Element) : bool :=
  match quick m with
  | Some q =>
      (str_falsy (q_tag q) || String.eqb (toLowerCase (nodeName el)) (q_tag q))
      && match q_id q with None => true | Some i => String.eqb (el_id el) i end
      && match q_attr q with None => true | Some a => hasAttribute el a end
      && match q_class q with
         | None => true
         | Some c => found (" " +:+ className el +:+ " ") c
         end
  | None => negb (quickOnly m) && native el (selector m)
  end.

(** [DOMElement.prototype.matches] for a string selector:
    [new SelectorMatcher(selector).test(this._node)]. *)
Definition DOMElement_matches (sel : string) (el : Element) : Completion bool :=
  match ctr sel false with
  | Normal m => Normal (test m el)
  | Throw e => Throw e
  end.
End Test.

(** *** The generic path on the selectors of the quick grammar

    What the host's matching primitive answers for a compound selector
    [tag#id[attr].class], after the spec's words: tag-name equality, id
    equality, attribute presence, class-list membership.  The class list of
    an element is its [class] attribute split on ASCII whitespace (TAB, LF,
    FF, CR, SPACE), as the DOM defines [classList]. *)
Definition is_space (c : ascii) : bool :=
  let n := code c in
  ((n =? 9) || (n =? 10) || (n =? 12) || (n =? 13) || (n =? 32))%N.

Fixpoint tokens_acc (cur : string) (s : string) : list string :=
  let flush := match cur with EmptyString => [] | _ => [cur] end in
  match s with
  | EmptyString => flush
  | String c s' =>
      if is_space c then flush ++ tokens_acc EmptyString s'
      else tokens_acc (cur +:+ String c EmptyString) s'
  end.

Definition tokens (s : string) : list string := tokens_acc EmptyString s.

Definition classList (el : Element) : list string := tokens (className el).

Definition generic_compound (q : Quick) (el : Element) : bool :=
  (str_falsy (q_tag q) || String.eqb (toLowerCase (nodeName el)) (toLowerCase (q_tag q)))
  && match q_id q with None => true | Some i => String.eqb (el_id el) i end
  && match q_attr q with None => true | Some a => hasAttribute el a end
  && match q_class q with
     | None => true
     | Some c => bool_decide (c ∈ classList el)
     end.

(** The generic path restricted to the quick grammar. *)
Definition generic_test (sel : string) (el : Element) : option bool :=
  match rquickIs_exec sel with
  | Some q => Some (generic_compound q el)
  | None => None
  end.

(** The class attribute separates its names by spaces only. *)
Definition space_separated (s : string) : bool :=
  all_chars (fun c => negb (is_space c) || Ascii.eqb c " ") s.

(** The class test of [DOMElement.prototype.hasClass] on hosts without
    [classList]: [rclass] turns LF, TAB and CR into spaces before the
    search. *)
Definition rclass_char (c : ascii) : bool :=
  let n := code c in ((n =? 10) || (n =? 9) || (n =? 13))%N.

Fixpoint replace_rclass (s : string) : string :=
  match s with
  | EmptyString => EmptyString
  | String c s' => String (if rclass_char c then " "%char else c) (replace_rclass s')
  end.

Definition hasClass_strategy (el : Element) (cls : string) : bool :=
  found (replace_rclass (" " +:+ className el +:+ " ")) (" " +:+ cls +:+ " ").

(** A [div] whose class attribute separates two names by a TAB. *)
Definition tab : string := String (ascii_of_N 9) EmptyString.
Definition div_tabbed : Element :=
  mkElement "DIV" {[ "class" := "a" +:+ tab +:+ "b" ]}.

End Selector.

(* ===================================================================== *)
(** ** Events: [on], [off], [fire]                                        *)
(* ===================================================================== *)

Module Events.

(** What the host probing at load time decides. *)
Record Caps : Type := mkCaps {
  isW3Compliant : bool;
  focusin_supported : bool;  (* isEventSupported("input", "focusin") *)
  function_name : bool       (* functions have a [name] property (not in IE) *)
}.

(** An entry of [eventHooks]: the keys it defines. *)
Record Hook : Type := mkHook {
  hk_name : option string;
  hk_capturing : option bool
}.

(** [eventHooks] as lines 302-322 fill it. *)
Definition eventHooks (caps : Caps) : gmap string Hook :=
  let focus_blur : gmap string Hook :=
    if focusin_supported caps
    then <["blur" := mkHook (Some "focusout") None]>
           (<["focus" := mkHook (Some "focusin") None]> ∅)
    else <["blur" := mkHook None (Some true)]>
           (<["focus" := mkHook None (Some true)]> ∅) in
  <["invalid" := mkHook None (Some true)]> focus_blur.

(** A registration in the host's listener mechanism of [this._node]:
    [addEventListener(type, handler, capture)] or
    [attachEvent(type, handler)]. *)
Record Listener : Type := mkListener {
  l_type : string;
  l_handler : Handler;
  l_capture : bool
}.

(** The state the three methods work on: the registrations on the node,
    [this._events], and the supply of closure identities. *)
Record State : Type := mkState {
  listeners : list Listener;
  _events : list EventEntry;
  next_id : nat
}.

Definition same_listener (ty : string) (h : Handler) (cap : bool) (l : Listener) : bool :=
  String.eqb (l_type l) ty && Nat.eqb (h_id (l_handler l)) (h_id h) && Bool.eqb (l_capture l) cap.

(** The host drops a registration that repeats an existing one. *)
Definition addEventListener (ty : string) (h : Handler) (cap : bool) (ls : list Listener)
  : list Listener :=
  if existsb (same_listener ty h cap) ls then ls else ls ++ [mkListener ty h cap].

Definition removeEventListener (ty : string) (h : Handler) (cap : bool) (ls : list Listener)
  : list Listener :=
  List.filter (fun l => negb (same_listener ty h cap l)) ls.

(** [attachEvent] / [detachEvent] know no capture phase. *)
Definition attachEvent (ty : string) (h : Handler) (ls : list Listener) : list Listener :=
  ls ++ [mkListener ty h false].

Definition detachEvent (ty : string) (h : Handler) (ls : list Listener) : list Listener :=
  List.filter (fun l => negb (same_listener ty h false l)) ls.

(** [~event.indexOf(":")] as a condition. *)
Definition isCustom (event : string) : bool := negb (bitnot (indexOf event ":") =? 0).

Section WithCaps.
Variable caps : Caps.

(** The body of the [_.forEach(event.split(" "), ...)] loop of [on]. *)
Definition on_one (selector callback : Value) (event : string) (st : State) : State :=
  let hook := eventHooks caps !! event in
  (* _.mixin({name: event, callback: callback, capturing: false}, eventHooks[event]) *)
  let name := default event (hook ≫= hk_name) in
  let capturing := default false (hook ≫= hk_capturing) in
  (* createEventHandler(this, callback, selector): a fresh closure *)
  let handler := mkHandler (next_id st) callback selector None in
  if isW3Compliant caps then
    mkState (addEventListener name handler capturing (listeners st))
            (_events st ++ [mkEntry name callback capturing handler])
            (S (next_id st))
  else
    if isCustom event then
      (* custom events for ie8: the wrapper closure filters on e.srcUrn *)
      let wrapper := mkHandler (S (next_id st)) callback selector (Some event) in
      mkState (attachEvent ("on" +:+ "dataavailable") wrapper (listeners st))
              (_events st ++ [mkEntry "dataavailable" callback capturing wrapper])
              (S (S (next_id st)))
    else
      mkState (attachEvent ("on" +:+ name) handler (listeners st))
              (_events st ++ [mkEntry name callback capturing handler])
              (S (next_id st)).

(** [on] with a string event. *)
Definition on_string (event : string) (selector callback : Value) (st : State) : State :=
  let '(selector, callback) :=
    if String.eqb (typeof selector) "function" then (VNull, selector)
    else (selector, callback) in
  fold_left (fun st ev => on_one selector callback ev st) (split " " event) st.

(** [DOMNode.prototype.on]; a normal completion returns [this]. *)
Definition on (event selector callback : Value) (st : State) : Completion unit * State :=
  match event with
  | VStr ev => (Normal tt, on_string ev selector callback st)
  | VObj props =>
      (* _.forOwn(event, function(key) { this.on(key, event[key]); }, this) *)
      (Normal tt, fold_left (fun st kv => on_string (fst kv) (snd kv) VUndefined st) props st)
  | VNull => (Throw TypeError, st)   (* Object.keys(null) *)
  | _ => (Throw (Thrown (makeError "on")), st)
  end.

(** The name [on] files a record under: [name] of
    [_.mixin({name: event, ...}, eventHooks[event])].  The mixin copies
    the own enumerable keys of the hook, so a member that [eventHooks]
    inherits from [Object.prototype] contributes nothing. *)
Definition entry_name (event : string) : string :=
  default event ((eventHooks caps !! event) ≫= hk_name).

(** [hook.name] where [eventHooks] does not own the key: [eventHooks] is
    a plain object, so [eventHooks[eventType]] is then the member of
    [Object.prototype] of that name, if any.  These members are
    functions, each named by its key (assigning that name changes
    nothing), except [constructor], which is the function [Object]; the
    prototype itself, under [__proto__], has no [name], and neither has
    any function on a host without function names. *)
Definition inherited_hook_name (eventType : string) : option string :=
  if function_name caps && String.eqb eventType "constructor" then Some "Object" else None.

(** [hook = eventHooks[eventType]; if (hook && hook.name) eventType = hook.name]
    of [off] and [fire]. *)
Definition hooked_name (eventType : string) : string :=
  match eventHooks caps !! eventType with
  | Some hook => default eventType (hk_name hook)
  | None => default eventType (inherited_hook_name eventType)
  end.

(** The test of the loop of [off], the callback being [undefined] or a
    function. *)
Definition off_matches (eventType : string) (callback : option nat) (entry : EventEntry) : bool :=
  String.eqb eventType (e_name entry)
  && match callback with
     | None => true
     | Some f => same_function f (e_callback entry)
     end.

Definition off_one (eventType : string) (callback : option nat)
    (ls : list Listener) (entry : EventEntry) : list Listener :=
  if off_matches eventType callback entry then
    if isW3Compliant caps
    then removeEventListener eventType (e_handler entry) (e_capturing entry) ls
    else detachEvent ("on" +:+ eventType) (e_handler entry) ls
  else ls.

(** [DOMNode.prototype.off] *)
Definition off (eventType callback : Value) (st : State) : Completion unit * State :=
  match eventType, callback with
  | VStr ty, VUndefined =>
      (Normal tt,
       mkState (fold_left (off_one (hooked_name ty) None) (_events st) (listeners st))
               (_events st) (next_id st))
  | VStr ty, VFun f =>
      (Normal tt,
       mkState (fold_left (off_one (hooked_name ty) (Some f)) (_events st) (listeners st))
               (_events st) (next_id st))
  | _, _ => (Throw (Thrown (makeError "off")), st)
  end.

(** What a handler does when the event is dispatched at the node it is
    bound to ([e.target] is [currentTarget]): the plain handler calls the
    callback, the delegating one (truthy selector) leaves its loop at once
    and calls nothing; the IE8 wrapper first compares [e.srcUrn].  The
    result is the function called, if any. *)
Definition run_handler (srcUrn : option string) (h : Handler) : option nat :=
  let inner :=
    if truthy (h_selector h) then None
    else match h_callback h with VFun f => Some f | _ => None end in
  match h_custom h with
  | None => inner
  | Some ev =>
      match srcUrn with
      | Some u => if String.eqb u ev then inner else None
      | None => None
      end
  end.

(** The functions the host calls when an event of type [ty] is dispatched
    at the node, in registration order. *)
Definition dispatch (ty : string) (srcUrn : option string) (ls : list Listener) : list nat :=
  omap (fun l => if String.eqb (l_type l) ty then run_handler srcUrn (l_handler l) else None) ls.

(** [DOMNode.prototype.fire]: the callbacks invoked by the dispatch. *)
Definition fire (eventType : Value) (st : State) : Completion (list nat) :=
  match eventType with
  | VStr ty =>
      let custom := isCustom ty in
      let ty' := hooked_name ty in
      if isW3Compliant caps then Normal (dispatch ty' None (listeners st))
      else if custom then Normal (dispatch ("on" +:+ "dataavailable") (Some ty') (listeners st))
      else Normal (dispatch ("on" +:+ ty') None (listeners st))
  | _ => Throw (Thrown (makeError "fire"))
  end.

(** The records of [this._events] for a type / callback pair: those
    under the name [on] files the type under. *)
Definition bindings (eventType : string) (f : nat) (st : State) : list EventEntry :=
  List.filter (fun e => off_matches (entry_name eventType) (Some f) e) (_events st).

(** The name a registration is filed under: the event type for
    [addEventListener], prefixed by [on] for [attachEvent]. *)
Definition listener_type (name : string) : string :=
  if isW3Compliant caps then name else "on" +:+ name.

(** The host registrations for a type whose handler calls [f]: those
    under the name [on] registers the type under. *)
Definition active (eventType : string) (f : nat) (st : State) : list Listener :=
  List.filter (fun l => String.eqb (l_type l) (listener_type (entry_name eventType))
                        && same_function f (h_callback (l_handler l))) (listeners st).

(** Every registration on the node was made by this wrapper's [on]: it
    has its record in [this._events]. *)
Definition tracked (st : State) : Prop :=
  forall l, In l (listeners st) ->
    exists e, In e (_events st)
      /\ l_type l = listener_type (e_name e)
      /\ e_handler e = l_handler l
      /\ l_capture l = (if isW3Compliant caps then e_capturing e else false)
      /\ e_callback e = h_callback (l_handler l).

(** A call of one of the three operations, with the values passed. *)
Inductive Call : Type :=
| CallOn (event selector callback : Value)
| CallOff (eventType callback : Value)
| CallFire (eventType detail : Value).

Definition op_name (c : Call) : string :=
  match c with
  | CallOn _ _ _ => "on"
  | CallOff _ _ => "off"
  | CallFire _ _ => "fire"
  end.

Definition run (c : Call) (st : State) : Completion unit * State :=
  match c with
  | CallOn ev sel cb => on ev sel cb st
  | CallOff ty cb => off ty cb st
  | CallFire ty _ =>
      match fire ty st with
      | Normal _ => (Normal tt, st)
      | Throw e => (Throw e, st)
      end
  end.

(** The argument types that the operations test for: [on] takes a string
    or an object of type / callback pairs, [off] a string and, if given, a
    function, [fire] a string. *)
Definition rejected (c : Call) : bool :=
  match c with
  | CallOn ev _ _ =>
      negb (String.eqb (typeof ev) "string") && negb (String.eqb (typeof ev) "object")
  | CallOff ty cb =>
      negb (String.eqb (typeof ty) "string")
      || (negb (is_undefined cb) && negb (String.eqb (typeof cb) "function"))
  | CallFire ty _ => negb (String.eqb (typeof ty) "string")
  end.

End WithCaps.

Definition init : State := mkState [] [] 0.
Definition w3c : Caps := mkCaps true true true.
Definition ie8 : Caps := mkCaps false true false.

End Events.

(* ===================================================================== *)
(** ** The data store: [getData], [setData]                               *)
(* ===================================================================== *)

Module Data.

(** [this._data] is created by [this._data = {}]: a plain object, which
    besides its own properties has the ones it inherits.  What a lookup
    along the prototype chain can find: a data property, the [__proto__]
    accessor of [Object.prototype], or an accessor whose getter and
    setter throw (the [caller] and [arguments] of some functions). *)
Inductive Member : Type :=
| MData (v : Value) (writable : bool)
| MProto
| MThrows.

(** What the host provides: the data properties of [Object.prototype]
    ([constructor], [toString], ...; they are writable), the value that
    stands for the object [Object.prototype] itself, whether
    [Object.prototype] has the [__proto__] accessor, and the members of a
    function object (its own and those of [Function.prototype]). *)
Record Host : Type := mkHost {
  Object_prototype : gmap string Value;
  Object_prototype_ref : Value;
  proto_accessor : bool;
  function_member : nat -> string -> option Member
}.

(** The prototype of the store: [Object.prototype] as [{}] sets it, or
    what an assignment to [__proto__] has put in its place. *)
Inductive Proto : Type :=
| ObjectPrototype
| ProtoNull
| ProtoPlain (props : list (string * Value))
| ProtoFunction (f : nat).

Record Store : Type := mkStore {
  own : gmap string Value;
  proto : Proto
}.

(** [{}] *)
Definition empty_store : Store := mkStore ∅ ObjectPrototype.

(** The own property [key] of a plain object given by its pairs (the
    last pair of a key is the one that counts). *)
Definition own_of (props : list (string * Value)) (key : string) : option Value :=
  fold_left (fun acc kv => if String.eqb (fst kv) key then Some (snd kv) else acc) props None.

Section WithHost.
Variable host : Host.

Definition from_Object_prototype (key : string) : option Member :=
  if proto_accessor host && String.eqb key "__proto__" then Some MProto
  else option_map (fun v => MData v true) (Object_prototype host !! key).

(** The property [key] as the store inherits it, if it does. *)
Definition inherited (p : Proto) (key : string) : option Member :=
  match p with
  | ObjectPrototype => from_Object_prototype key
  | ProtoNull => None
  | ProtoPlain props =>
      match own_of props key with
      | Some v => Some (MData v true)
      | None => from_Object_prototype key
      end
  | ProtoFunction f =>
      match function_member host f key with
      | Some m => Some m
      | None => from_Object_prototype key
      end
  end.

(** The prototype as a value, which the [__proto__] getter returns. *)
Definition proto_value (p : Proto) : Value :=
  match p with
  | ObjectPrototype => Object_prototype_ref host
  | ProtoNull => VNull
  | ProtoPlain props => VObj props
  | ProtoFunction f => VFun f
  end.

(** [this._data[key]] *)
Definition data_get (d : Store) (key : string) : Completion Value :=
  match own d !! key with
  | Some v => Normal v
  | None =>
      match inherited (proto d) key with
      | Some (MData v _) => Normal v
      | Some MProto => Normal (proto_value (proto d))
      | Some MThrows => Throw TypeError
      | None => Normal VUndefined
      end
  end.

(** [this._data[key] = value], in strict code: an own property is
    written; otherwise an own property is created unless the store
    inherits the key as a property that is not writable (a [TypeError])
    or as an accessor.  The [__proto__] setter replaces the prototype by
    an object or [null] and ignores any other value. *)
Definition data_put (d : Store) (key : string) (value : Value) : Completion unit * Store :=
  match own d !! key with
  | Some _ => (Normal tt, mkStore (<[key := value]> (own d)) (proto d))
  | None =>
      match inherited (proto d) key with
      | Some (MData _ true) | None =>
          (Normal tt, mkStore (<[key := value]> (own d)) (proto d))
      | Some (MData _ false) | Some MThrows => (Throw TypeError, d)
      | Some MProto =>
          match value with
          | VNull => (Normal tt, mkStore (own d) ProtoNull)
          | VObj props => (Normal tt, mkStore (own d) (ProtoPlain props))
          | VFun f => (Normal tt, mkStore (own d) (ProtoFunction f))
          | _ => (Normal tt, d)
          end
      end
  end.

(** [DOMNode.prototype.getData]: the result and the new [_data]. *)
Definition getData (key : Value) (node : Element) (d : Store)
  : Completion Value * Store :=
  match key with
  | VStr k =>
      match data_get d k with
      | Normal result =>
          if is_undefined result && hasAttribute node ("data-" +:+ k) then
            (* result = this._data[key] = node.getAttribute("data-" + key) *)
            let result := match getAttribute node ("data-" +:+ k) with
                          | Some a => VStr a
                          | None => VNull
                          end in
            match data_put d k result with
            | (Normal _, d') => (Normal result, d')
            | (Throw e, d') => (Throw e, d')
            end
          else (Normal result, d)
      | Throw e => (Throw e, d)
      end
  | _ => (Throw (Thrown (makeError "getData")), d)
  end.

(** The loop of [_.forOwn(key, function(dataKey) { this.setData(dataKey, key[dataKey]); })]:
    it ends at the first assignment that throws. *)
Fixpoint setData_each (props : list (string * Value)) (d : Store) : Completion unit * Store :=
  match props with
  | [] => (Normal tt, d)
  | kv :: rest =>
      match data_put d (fst kv) (snd kv) with
      | (Normal _, d') => setData_each rest d'
      | (Throw e, d') => (Throw e, d')
      end
  end.

(** [DOMNode.prototype.setData] *)
Definition setData (key value : Value) (d : Store) : Completion unit * Store :=
  match key with
  | VStr k => data_put d k value
  | VObj props => setData_each props d
  | VNull => (Throw TypeError, d)   (* Object.keys(null) *)
  | _ => (Throw (Thrown (makeError "setData")), d)
  end.


End WithHost.

(** A browser of the kind the library runs on: [Object.prototype] with
    its standard function members (numbered from 900 on) and the
    [__proto__] accessor. *)
Definition host_browser : Host :=
  mkHost (list_to_map
            [("constructor", VFun 900); ("toString", VFun 901);
             ("toLocaleString", VFun 902); ("valueOf", VFun 903);
             ("hasOwnProperty", VFun 904); ("isPrototypeOf", VFun 905);
             ("propertyIsEnumerable", VFun 906)])
         (VObj []) true (fun _ _ => None).

End Data.

(* ===================================================================== *)
(** ** Property hooks: [get], [set]                                       *)
(* ===================================================================== *)

Module Props.

(** What the probing at load time decides for the hook table. *)
Record Caps : Type := mkCaps {
  isIECompliant : bool;
  hidden_in_htmlEl : bool   (* "hidden" in htmlEl *)
}.

(** The host node as [get] and [set] see it: attributes, the properties
    that exist on the node ([name in el] is membership in [props]) and the
    inline style. *)
Record Node : Type := mkNode {
  el : Element;
  props : gmap string Value;
  style : gmap string Value
}.

Inductive Getter : Type := throwIllegalAccess_get.
Inductive Setter : Type := throwIllegalAccess_set | innerHTML_set | hidden_set.

Record PropHook : Type := mkPropHook {
  hook_get : option Getter;
  hook_set : option Setter
}.

(** The keys of line 607. *)
Definition protected_keys : list string :=
  split " " "children childNodes elements parentNode firstElementChild lastElementChild nextElementSibling previousElementSibling".

(** [propHooks[key] = propHooks[key.replace("Element", "")] = {get: throwIllegalAccess, set: throwIllegalAccess}] *)
Definition protect (hooks : gmap string PropHook) (key : string) : gmap string PropHook :=
  let h := mkPropHook (Some throwIllegalAccess_get) (Some throwIllegalAccess_set) in
  <[key := h]> (<[replace_first "Element" EmptyString key := h]> hooks).

(** [propHooks] as lines 602-643 fill it. *)
Definition propHooks (caps : Caps) : gmap string PropHook :=
  let h0 := fold_left protect protected_keys ∅ in
  let h1 := if isIECompliant caps
            then <["innerHTML" := mkPropHook None (Some innerHTML_set)]> h0 else h0 in
  if hidden_in_htmlEl caps then h1
  else <["hidden" := mkPropHook None (Some hidden_set)]> h1.

(** Every name that the loop of line 607 protects. *)
Definition protected_names : list string :=
  flat_map (fun key => [key; replace_first "Element" EmptyString key]) protected_keys.

Section WithHost.
Variable caps : Caps.
(** [String(v)], the conversion [setAttribute] applies to its argument. *)
Variable ToString : Value -> string.
(** [f.call(this, current)] for a function value [f]. *)
Variable call : nat -> Value -> Completion Value.

(** [throwIllegalAccess]: [throw makeError("get")], for reads and writes. *)
Definition throwIllegalAccess {A} : Completion A := Throw (Thrown (makeError "get")).

(** [el[name] || el.getAttribute(name)] *)
Definition read_direct (n : Node) (name : string) : Value :=
  let p := default VUndefined (props n !! name) in
  if truthy p then p
  else match getAttribute (el n) name with
       | Some a => VStr a
       | None => VNull
       end.

(** [DOMElement.prototype.get] *)
Definition get (n : Node) (name : Value) : Completion Value :=
  match name with
  | VStr nm =>
      match (propHooks caps !! nm) ≫= hook_get with
      | Some throwIllegalAccess_get => throwIllegalAccess
      | None => Normal (read_direct n nm)
      end
  | _ => Throw (Thrown (makeError "get"))
  end.

(** The setters of the hook table. *)
Definition run_setter (s : Setter) (n : Node) (value : Value) : Completion unit * Node :=
  match s with
  | throwIllegalAccess_set => (throwIllegalAccess, n)
  | innerHTML_set =>
      (* el.innerHTML = "&shy;" + value; el.removeChild(el.firstChild) *)
      (Normal tt, mkNode (el n) (<["innerHTML" := VStr (ToString value)]> (props n)) (style n))
  | hidden_set =>
      match value with
      | VBool b =>
          let e := if b then setAttribute (el n) "hidden" "hidden"
                   else removeAttribute (el n) "hidden" in
          (Normal tt,
           mkNode e (<["hidden" := VBool b]> (props n))
                  (<["zoom" := VStr (if b then "1" else "0")]> (style n)))
      | _ => (Throw (Thrown (makeError "set")), n)
      end
  end.

(** The body of the loop of [set] over [name.split(" ")]. *)
Definition set_one (value : Value) (name : string) (n : Node) : Completion unit * Node :=
  match propHooks caps !! name with
  | Some hook =>
      match hook_set hook with
      | Some s => run_setter s n value
      | None => (Throw TypeError, n)   (* hook.set is not a function *)
      end
  | None =>
      match value with
      | VNull => (Normal tt, mkNode (removeAttribute (el n) name) (props n) (style n))
      | _ =>
          if bool_decide (is_Some (props n !! name))
          then (Normal tt, mkNode (el n) (<[name := value]> (props n)) (style n))
          else (Normal tt, mkNode (setAttribute (el n) name (ToString value)) (props n) (style n))
      end
  end.

(** [set] with a string name. *)
Definition set_string (name : string) (value : Value) (n : Node) : Completion unit * Node :=
  let computed : Completion Value :=
    match value with
    | VFun f =>
        (* value = value.call(this, this.get(name)) *)
        match get n (VStr name) with
        | Normal cur => call f cur
        | Throw e => Throw e
        end
    | _ => Normal value
    end in
  match computed with
  | Throw e => (Throw e, n)
  | Normal v => forEach (split " " name) (set_one v) n
  end.

(** [DOMElement.prototype.set]; a normal completion returns [this]. *)
Definition set (name value : Value) (n : Node) : Completion unit * Node :=
  match name with
  | VStr nm => set_string nm value n
  | VObj pairs =>
      (* _.forOwn(name, function(key) { this.set(key, name[key]); }, this) *)
      forEach pairs (fun kv => set_string (fst kv) (snd kv)) n
  | VNull => (Throw TypeError, n)   (* Object.keys(null) *)
  | _ => (Throw (Thrown (makeError "set")), n)
  end.

End WithHost.

End Props.

(* ===================================================================== *)
(** ** [DOMNode.prototype.find] / [findAll]                               *)
(* ===================================================================== *)

Module Find.

Definition ident (s : string) : bool :=
  negb (String.eqb s EmptyString) && all_chars is_word_dash s.

(** The captures of [rquickExpr]: [#] and an identifier, or a non-empty
    run of word characters, or (on hosts with [getElementsByClassName]) a
    dot and an identifier. *)
Inductive QuickExpr : Type :=
| QId (m : string)
| QTag
| QClass (m : string).

Definition rquickExpr_exec (byClass : bool) (selector : string) : option QuickExpr :=
  match selector with
  | String c rest =>
      if Ascii.eqb c "#" then (if ident rest then Some (QId rest) else None)
      else if Ascii.eqb c "." then
        (if byClass && ident rest then Some (QClass rest) else None)
      else if all_chars is_word selector then Some QTag else None
  | EmptyString => None
  end.

(** [rsibling.test(selector)]: the expression is an optional run of
    blanks followed by one of [+], [~], [>], anywhere in the string. *)
Definition rsibling_test (selector : string) : bool :=
  contains_char "+" selector || contains_char "~" selector || contains_char ">" selector.

(** [old.replace(rescape, "\\$&")]: a backslash before every quote and
    backslash. *)
Fixpoint escape (s : string) : string :=
  match s with
  | EmptyString => EmptyString
  | String c s' =>
      if Ascii.eqb c "'" || Ascii.eqb c "\"
      then String "\" (String c (escape s'))
      else String c (escape s')
  end.

(** [nid + selector.split(",").join("," + nid)] *)
Definition scope_selector (nid selector : string) : string :=
  nid +:+ join ("," +:+ nid) (split "," selector).

(** The node a wrapper holds: the document, or an element (with or
    without a parent node). *)
Inductive Root : Type :=
| Document
| Elem (e : Element) (has_parent : bool).

Section Host.
(** Host nodes, as the lookup primitives return them. *)
Variable N : Type.
(** [tmpId = "DOM" + new Date().getTime()], fixed at load time. *)
Variable tmpId : string.
(** [document.getElementsByClassName] exists. *)
Variable byClass : bool.
Variable getElementById : string -> option N.
(** [elem.parentNode && elem.id === m] *)
Variable attached_with_id : N -> string -> bool.
(** [this.contains(elem)] *)
Variable contains : N -> bool.
(** [node.getElementsByTagName], [node.getElementsByClassName] on the
    root at hand. *)
Variable getElementsByTagName : Root -> string -> list N.
Variable getElementsByClassName : Root -> string -> list N.
(** [context.querySelectorAll(selector)] / [context.querySelector(selector)],
    which may throw.  The primitive sees the root in its current state;
    [on_parent] tells that the context is the root's parent node. *)
Variable query : Root -> forall (on_parent multiple : bool), string -> Completion (list N).

(** The value of [elements] when the method reaches its [return]. *)
Inductive Found : Type :=
| Undefined
| One (n : option N)
| Many (l : list N).

Definition is_document (r : Root) : bool :=
  match r with Document => true | Elem _ _ => false end.

(** [elements[0]] for [!multiple]; an empty collection gives [undefined]. *)
Definition first_of (l : list N) : Found := One (head l).

(** The quick branch of [find]. *)
Definition find_quick (r : Root) (selector : string) (q : QuickExpr) (multiple : bool) : Found :=
  let elements : option (list N) :=
    match q with
    | QId m =>
        match getElementById m with
        | Some elem =>
            if attached_with_id elem m && (is_document r || contains elem)
            then Some [elem] else None
        | None => None
        end
    | QTag => Some (getElementsByTagName r selector)
    | QClass m => Some (getElementsByClassName r m)
    end in
  match elements with
  | Some l => if multiple then Many l else first_of l
  | None => Undefined
  end.

(** The generic branch of [find]: the result of the query and the root
    after the [finally] block. *)
Definition find_generic (r : Root) (selector : string) (multiple : bool)
  : Completion Found * Root :=
  match r with
  | Document =>
      (match query Document false multiple selector with
       | Normal l => Normal (if multiple then Many l else One (head l))
       | Throw e => Throw e
       end, Document)
  | Elem e has_parent =>
      (* if ( (old = node.getAttribute("id")) ) ... else node.setAttribute("id", nid) *)
      let old := getAttribute e "id" in
      let old_truthy := match old with
                        | Some o => negb (String.eqb o EmptyString)
                        | None => false
                        end in
      let nid := if old_truthy then escape (default EmptyString old) else tmpId in
      let tagged := if old_truthy then e else setAttribute e "id" tmpId in
      let nid := "[id='" +:+ nid +:+ "'] " in
      let on_parent := rsibling_test selector && has_parent in
      let selector := scope_selector nid selector in
      let result := query (Elem tagged has_parent) on_parent multiple selector in
      (* finally { if ( !old ) node.removeAttribute("id"); } *)
      let final := if old_truthy then tagged else removeAttribute tagged "id" in
      (match result with
       | Normal l => Normal (if multiple then Many l else One (head l))
       | Throw e => Throw e
       end, Elem final has_parent)
  end.

(** [find(selector, multiple)] up to its [return]: the value of
    [elements] and the root afterwards. *)
Definition find (r : Root) (selector : Value) (multiple : bool) : Completion Found * Root :=
  match selector with
  | VStr sel =>
      match rquickExpr_exec byClass sel with
      | Some q => (Normal (find_quick r sel q multiple), r)
      | None => find_generic r sel multiple
      end
  | _ => (Throw (Thrown (makeError "find")), r)
  end.

(** [findAll(selector)] is [find(selector, true)]. *)
Definition findAll (r : Root) (selector : Value) : Completion Found * Root :=
  find r selector true.

(** The selector that reaches the query primitive for an element root. *)
Definition scoped (e : Element) (selector : string) : string :=
  match getAttribute e "id" with
  | Some (String c o) => scope_selector ("[id='" +:+ escape (String c o) +:+ "'] ") selector
  | _ => scope_selector ("[id='" +:+ tmpId +:+ "'] ") selector
  end.

End Host.

Arguments Undefined {N}.
Arguments One {N} n.
Arguments Many {N} l.

(** A query primitive that records nothing and finds nothing, and one
    that always throws (a selector the host cannot parse). *)
Definition query_none : Root -> bool -> bool -> string -> Completion (list nat) :=
  fun _ _ _ _ => Normal [].
Definition query_throws : Root -> bool -> bool -> string -> Completion (list nat) :=
  fun _ _ _ _ => Throw (HostError 12).

(** A [div] whose [id] attribute is present and empty. *)
Definition div_empty_id : Element := mkElement "DIV" {[ "id" := EmptyString ]}.

End Find.

(* ===================================================================== *)
(** ** [DOM.importStyles] and [DOM.watch]                                 *)
(* ===================================================================== *)

Module Watch.

(** What the probing at load time decides. *)
Record Caps : Type := mkCaps {
  addBehavior : bool;   (* htmlEl.addBehavior *)
  cssRules : bool       (* styleSheet.cssRules *)
}.

(** What [DOM._watchers] holds under a selector: the behaviour branch
    stores the array of callbacks, the animation branch the animation
    names joined by commas. *)
Inductive WatchEntry : Type :=
| Callbacks (l : list nat)
| Names (s : string).

(** A listener that [watch] adds to the document: the event name, the
    animation name its closure compares with, and the callback. *)
Record DocListener : Type := mkDocListener {
  dl_event : string;
  dl_animation : string;
  dl_callback : nat
}.

Record State : Type := mkState {
  _watchers : gmap string WatchEntry;
  (** the rules of the style sheet, in order: selector and declarations *)
  styleSheet : list (string * string);
  documentListeners : list DocListener;
  (** the calls [callback(element)] made so far *)
  calls : list (nat * nat)
}.

(** The argument [styles] of [importStyles]. *)
Inductive Styles : Type :=
| StylesText (s : string)
| StylesObject (props : list (string * string)).

(** [process(selector, styles)] of [importStyles]: the rules it adds. *)
Definition process (caps : Caps) (selector : string) (styles : Styles) : list (string * string) :=
  let ruleText :=
    match styles with
    | StylesObject props =>
        fold_left (fun acc kv => acc +:+ fst kv +:+ ":" +:+ snd kv +:+ "; ") props EmptyString
    | StylesText s => s
    end in
  if cssRules caps then [(selector, ruleText)]
  else map (fun sel => (sel, ruleText)) (split "," selector).

(** [DOM.importStyles(selector, styles)] with a string selector. *)
Definition importStyles (caps : Caps) (selector : string) (styles : Styles) (st : State) : State :=
  mkState (_watchers st) (styleSheet st ++ process caps selector styles)
          (documentListeners st) (calls st).

Definition startNames : list string :=
  ["animationstart"; "oAnimationStart"; "webkitAnimationStart"].

Section Host.
Variable caps : Caps.
(** [scripts[scripts.length - 1].getAttribute("data-htc")] *)
Variable behaviorUrl : string.
Variable cssPrefix : string.
(** The elements [DOM.findAll(selector)] finds in the document. *)
Variable findAll : string -> list nat.

(** [watch] on hosts with [addBehavior] (lines 1568-1581). *)
Definition watch_behavior (selector : string) (callback : nat) (st : State) : State :=
  match _watchers st !! selector with
  | Some (Callbacks entry) =>
      (* entry.push(callback); DOM.findAll(selector).each(callback) *)
      mkState (<[selector := Callbacks (entry ++ [callback])]> (_watchers st))
              (styleSheet st) (documentListeners st)
              (calls st ++ map (fun elem => (callback, elem)) (findAll selector))
  | _ =>
      (* DOM._watchers[selector] = [callback]; DOM.importStyles(selector, {behavior: ...}) *)
      importStyles caps selector
        (StylesObject [("behavior", "url(" +:+ behaviorUrl +:+ ")")])
        (mkState (<[selector := Callbacks [callback]]> (_watchers st))
                 (styleSheet st) (documentListeners st) (calls st))
  end.

(** [watch] on the other hosts (lines 1589-1624); [now] is what
    [new Date().getTime()] returns at the call. *)
Definition watch_animation (now : N) (selector : string) (callback : nat) (st : State) : State :=
  let animationName := "DOM" +:+ show_N now in
  let allAnimationNames :=
    match _watchers st !! selector with
    | Some (Names s) => if String.eqb s EmptyString then animationName else s
    | _ => animationName
    end in
  let st1 := importStyles caps ("@" +:+ cssPrefix +:+ "keyframes " +:+ animationName)
               (StylesText "from { clip: rect(1px, auto, auto, auto) } to { clip: rect(0px, auto, auto, auto) }")
               st in
  let allAnimationNames :=
    if String.eqb allAnimationNames animationName then allAnimationNames
    else allAnimationNames +:+ "," +:+ animationName in
  let st2 := importStyles caps selector
               (StylesText (cssPrefix +:+ "animation-duration:0.001s;" +:+ cssPrefix
                            +:+ "animation-name:" +:+ allAnimationNames +:+ " !important"))
               st1 in
  mkState (<[selector := Names allAnimationNames]> (_watchers st2))
          (styleSheet st2)
          (documentListeners st2
           ++ map (fun name => mkDocListener name animationName callback) startNames)
          (calls st2).

(** [DOM.watch(selector, callback)] *)
Definition watch (now : N) (selector : string) (callback : nat) (st : State) : State :=
  if addBehavior caps then watch_behavior selector callback st
  else watch_animation now selector callback st.


End Host.

Definition init : State := mkState ∅ [] [] [].
Definition w3c : Caps := mkCaps false true.

End Watch.

(* ===================================================================== *)
(** ** Prototypes and the null objects                                    *)
(* ===================================================================== *)

Module NullObject.

(** What a property of a prototype or of a wrapper holds. *)
Inductive Member : Type :=
| Field                          (* a data property: _node, _data, _events *)
| Method (owner name : string)   (* a method the library defines *)
| Noop.                          (* function() {} *)

(** An object: its own enumerable properties in insertion order, and its
    prototype. *)
Inductive Object : Type :=
| mkObject (own : list (string * Member)) (proto : option Object).

Definition own_of (o : Object) : list (string * Member) :=
  match o with mkObject own _ => own end.

Fixpoint assoc (key : string) (l : list (string * Member)) : option Member :=
  match l with
  | [] => None
  | (k, m) :: rest => if String.eqb k key then Some m else assoc key rest
  end.

(** [o[key]]: the own property, else the prototype's. *)
Fixpoint get (o : Object) (key : string) : option Member :=
  match o with
  | mkObject own proto =>
      match assoc key own with
      | Some m => Some m
      | None => match proto with Some p => get p key | None => None end
      end
  end.

(** [Object.keys(o)] *)
Definition keys (o : Object) : list string := map fst (own_of o).

Fixpoint set_assoc (key : string) (m : Member) (l : list (string * Member))
  : list (string * Member) :=
  match l with
  | [] => [(key, m)]
  | (k, v) :: rest =>
      if String.eqb k key then (k, m) :: rest else (k, v) :: set_assoc key m rest
  end.

(** [o[key] = m], which is what [_.mixin(o, key, m)] does. *)
Definition mixin (o : Object) (key : string) (m : Member) : Object :=
  match o with mkObject own proto => mkObject (set_assoc key m own) proto end.

Definition methods (owner : string) (names : list string) : list (string * Member) :=
  map (fun n => (n, Method owner n)) names.

(** The own fields that the constructor [DOMNode] writes on [this]. *)
Definition instance_fields : list (string * Member) :=
  [("_node", Field); ("_data", Field); ("_events", Field)].

(** [DOMNode.prototype], the literal of line 66 and the three methods
    added by the events block. *)
Definition DOMNode_prototype : Object :=
  mkObject (methods "DOMNode"
    ["find"; "findAll"; "getData"; "setData"; "contains"; "on"; "off"; "fire"]) None.

(** [DOMElement.prototype = new DOMNode()] and the methods assigned to
    it, in source order. *)
Definition DOMElement_prototype : Object :=
  mkObject (instance_fields ++ methods "DOMElement"
    ["matches"; "clone"; "offset"; "show"; "hide"; "toString"; "get"; "set";
     "next"; "prev"; "parent"; "firstChild"; "lastChild"; "nextAll"; "prevAll";
     "children"; "after"; "before"; "prepend"; "append"; "replace"; "remove";
     "hasClass"; "addClass"; "removeClass"; "toggleClass"; "getStyle"; "setStyle"])
    (Some DOMNode_prototype).

(** [_.forOwn(source, function(key) { _.mixin(target, key, function() {}); })] *)
Definition mixin_noops (source target : Object) : Object :=
  fold_left (fun t key => mixin t key Noop) (keys source) target.

(** [DOMNullNode.prototype = new DOMNode()] after the loop of line 1101. *)
Definition DOMNullNode_prototype : Object :=
  mixin_noops DOMNode_prototype (mkObject instance_fields (Some DOMNode_prototype)).

(** [DOMNullElement.prototype = new DOMElement()] after the loops of
    lines 1101 and 1106. *)
Definition DOMNullElement_prototype : Object :=
  mixin_noops DOMElement_prototype
    (mixin_noops DOMNode_prototype (mkObject instance_fields (Some DOMElement_prototype))).

(** [new DOMNullNode()], [new DOMNullElement()]: [this._node = null]. *)
Definition null_node : Object := mkObject [("_node", Field)] (Some DOMNullNode_prototype).
Definition null_element : Object := mkObject [("_node", Field)] (Some DOMNullElement_prototype).

(** What a call [o.key(...)] comes to: the library method [owner.name]
    runs, or the call returns a value without doing anything, or it
    returns the receiver [this]. *)
Inductive Outcome : Type :=
| Runs (owner name : string)
| Returns (v : Value)
| ReturnsThis.

(** [o[key](...)]: calling something that is not a function throws a
    [TypeError]; [function() {}] returns [undefined]. *)
Definition invoke (o : Object) (key : string) : Completion Outcome :=
  match get o key with
  | Some (Method owner name) => Normal (Runs owner name)
  | Some Noop => Normal (Returns VUndefined)
  | Some Field | None => Throw TypeError
  end.

(** The operations a normal wrapper offers: the methods reachable from
    [DOMElement.prototype]. *)
Definition is_method (m : option Member) : bool :=
  match m with Some (Method _ _) => true | _ => false end.

Definition operations : list string :=
  List.filter (fun k => is_method (get DOMElement_prototype k))
    (keys DOMNode_prototype ++ keys DOMElement_prototype).

End NullObject.

(* ===================================================================== *)
(** ** [sandbox.parse], [DOM.create], [DOMElementCollection]              *)
(* ===================================================================== *)

Module Create.

(** A detached subtree of host nodes: elements and text nodes. *)
Inductive HNode : Type :=
| HElem (tag : string) (attrs : list (string * string)) (children : list HNode)
| HText (text : string).

(** *** The host's [innerHTML] setter

    A model of the host's markup parser for the markup that the scenario
    uses: tags without attributes, and text.  A tag that is still open at
    the end is closed there. *)
Inductive Token : Type :=
| TOpen (tag : string)
| TClose (tag : string)
| TText (text : string).

Definition text_token (cur : string) : list Token :=
  match cur with EmptyString => [] | _ => [TText cur] end.

Definition tag_token (cur : string) : Token :=
  match cur with
  | String "/" name => TClose name
  | _ => TOpen cur
  end.

Fixpoint tokenize (in_tag : bool) (cur : string) (s : string) : list Token :=
  match s with
  | EmptyString => if in_tag then [] else text_token cur
  | String c s' =>
      if in_tag then
        if Ascii.eqb c ">" then tag_token cur :: tokenize false EmptyString s'
        else tokenize true (cur +:+ String c EmptyString) s'
      else
        if Ascii.eqb c "<" then text_token cur ++ tokenize true EmptyString s'
        else tokenize false (cur +:+ String c EmptyString) s'
  end.

(** The open elements, innermost first: the tag and the siblings that
    precede it (latest first). *)
Definition close_all (cur : list HNode) (stack : list (string * list HNode)) : list HNode :=
  rev (fold_left (fun cur frame => HElem (fst frame) [] (rev cur) :: snd frame) stack cur).

Fixpoint build (toks : list Token) (cur : list HNode) (stack : list (string * list HNode))
  : list HNode :=
  match toks with
  | [] => close_all cur stack
  | TText s :: rest => build rest (HText s :: cur) stack
  | TOpen t :: rest => build rest [] ((t, cur) :: stack)
  | TClose _ :: rest =>
      match stack with
      | (t, before) :: stack' => build rest (HElem t [] (rev cur) :: before) stack'
      | [] => build rest cur []
      end
  end.

Definition host_innerHTML (html : string) : list HNode :=
  build (tokenize false EmptyString html) [] [].

Definition is_element (n : HNode) : bool :=
  match n with HElem _ _ _ => true | HText _ => false end.

(** [sandbox.parse(html)]: set [innerHTML] to the marker text followed
    by [html], remove the first child, return [el.children]. *)
Definition sandbox_parse (html : string) : list HNode :=
  List.filter is_element (tail (host_innerHTML ("shy;" +:+ html))).

(** *** Host lookups on a subtree *)

(** The descendants of a node in document order. *)
Fixpoint descendants (n : HNode) : list HNode :=
  match n with
  | HElem _ _ children => flat_map (fun c => c :: descendants c) children
  | HText _ => []
  end.

Definition tag_is (name : string) (n : HNode) : bool :=
  match n with
  | HElem tag _ _ => String.eqb name "*" || String.eqb (toLowerCase tag) (toLowerCase name)
  | HText _ => false
  end.

(** [node.getElementsByTagName(name)] *)
Definition host_getElementsByTagName (n : HNode) (name : string) : list HNode :=
  List.filter (tag_is name) (descendants n).

Definition has_class (cls : string) (n : HNode) : bool :=
  match n with
  | HElem _ attrs _ =>
      existsb (fun kv => String.eqb (fst kv) "class"
                         && bool_decide (cls ∈ Selector.tokens (snd kv))) attrs
  | HText _ => false
  end.

(** [node.getElementsByClassName(cls)] *)
Definition host_getElementsByClassName (n : HNode) (cls : string) : list HNode :=
  List.filter (has_class cls) (descendants n).

(** [node.textContent] *)
Fixpoint textContent (n : HNode) : string :=
  match n with
  | HElem _ _ children => fold_right (fun c acc => textContent c +:+ acc) EmptyString children
  | HText s => s
  end.

Fixpoint toUpperCase (s : string) : string :=
  match s with
  | EmptyString => EmptyString
  | String c s' =>
      String (if is_lower c then ascii_of_N (code c - 32) else c) (toUpperCase s')
  end.

(** The element record of a node, as the wrapper methods read it. *)
Definition element_of (n : HNode) : Element :=
  match n with
  | HElem tag attrs _ => mkElement (toUpperCase tag) (list_to_map attrs)
  | HText _ => mkElement "#text" ∅
  end.

(** *** [DOM.create] *)

(** The argument of [create]: a string, a native element, or any other
    value. *)
Inductive Content : Type :=
| CString (s : string)
| CElement (n : HNode)
| COther (v : Value).

(** What [create] returns: a [DOMElementCollection] over the wrappers of
    the given nodes, or the wrapper of one node. *)
Inductive Created : Type :=
| Collection (nodes : list HNode)
| Wrapper (node : HNode).

(** [content.charAt(0) === "<"] *)
Definition starts_with_lt (s : string) : bool :=
  match s with String c _ => Ascii.eqb c "<" | EmptyString => false end.

Definition create (content : Content) : Completion Created :=
  match content with
  | CString s =>
      if starts_with_lt s then Normal (Collection (sandbox_parse s))
      else Normal (Wrapper (HElem s [] []))   (* document.createElement(content) *)
  | CElement n => Normal (Wrapper n)
  | COther _ => Throw (Thrown (makeError_typed "create" "DOM"))
  end.

(** [DOMElementCollection.prototype]: [each] and the shortcuts made by
    [makeCollectionMethod]. *)
Definition DOMElementCollection_prototype : NullObject.Object :=
  NullObject.mkObject (NullObject.methods "DOMElementCollection"
    ["each"; "on"; "off"; "fire"; "setData"; "set"; "setStyle";
     "addClass"; "removeClass"; "toggleClass"]) None.

(** [new DOMElementCollection(elements)]: the own fields [_nodes] and
    [length]. *)
Definition collection_object : NullObject.Object :=
  NullObject.mkObject [("_nodes", NullObject.Field); ("length", NullObject.Field)]
    (Some DOMElementCollection_prototype).

Section Host.
Variable tmpId : string.
(** The host's selector engine on a subtree, for the generic branch of
    [find]. *)
Variable query : HNode -> Find.Root -> bool -> bool -> string -> Completion (list HNode).

(** [wrapper.findAll(selector)] on the wrapper of a node made by the
    sandbox: the nodes of the resulting collection.  The node is not in
    the document, so [document.getElementById] does not find it;
    [new DOMElementCollection(undefined)] throws in [_.map]. *)
Definition wrapper_findAll (n : HNode) (selector : string) : Completion (list HNode) :=
  match
    fst (Find.findAll HNode tmpId true (fun _ => None) (fun _ _ => false) (fun _ => false)
           (fun _ => host_getElementsByTagName n) (fun _ => host_getElementsByClassName n)
           (query n) (Find.Elem (element_of n) true) (VStr selector))
  with
  | Normal (Find.Many l) => Normal l
  | Normal (Find.One o) => Normal (option_list o)
  | Normal Find.Undefined => Throw TypeError
  | Throw e => Throw e
  end.

(** [create(content).findAll(selector)]: on a collection the property
    lookup decides; the methods a collection has return the collection. *)
Definition create_then_findAll (content : Content) (selector : string)
  : Completion (list HNode) :=
  match create content with
  | Normal (Collection nodes) =>
      match NullObject.invoke collection_object "findAll" with
      | Normal _ => Normal nodes
      | Throw e => Throw e
      end
  | Normal (Wrapper n) => wrapper_findAll n selector
  | Throw e => Throw e
  end.

End Host.

Definition markup : string := "<ul><li>a</li><li>b</li></ul>".
Definition li (text : string) : HNode := HElem "li" [] [HText text].
Definition ul : HNode := HElem "ul" [] [li "a"; li "b"].

End Create.

(* ===================================================================== *)
(** ** Events: delegation and bubbling                                    *)
(* ===================================================================== *)

Module Delegation.

Section Host.
(** The host's selector-matching primitive. *)
Variable native : Element -> string -> bool.
(** [String(v)]: what the regular expression and the host read when the
    selector is not a string. *)
Variable ToString : Value -> string.

Definition selector_text (v : Value) : string :=
  match v with VStr s => s | _ => ToString v end.

(** The loop of the delegating handler of [createEventHandler]:
    [for (; elem && elem !== currentTarget; elem = elem.parentNode)
       if (matcher.test(elem)) return simpleEventHandler(e);].
    [path] lists the elements the loop visits: the target of the event
    and its ancestors below the node the handler is bound to. *)
Fixpoint delegate_loop (m : Selector.Matcher) (path : list Element) : bool :=
  match path with
  | [] => false
  | elem :: up => if Selector.test native m elem then true else delegate_loop m up
  end.

(** What the handler built by [createEventHandler(thisPtr, callback, selector)]
    does for an event whose target lies below the bound node: the function
    it calls, if any. *)
Definition run_handler_from (path : list Element) (srcUrn : option string) (h : Handler)
  : option nat :=
  let simple := match h_callback h with VFun f => Some f | _ => None end in
  let inner :=
    if truthy (h_selector h) then
      match Selector.ctr (selector_text (h_selector h)) false with
      | Normal m => if delegate_loop m path then simple else None
      | Throw _ => None
      end
    else simple in
  match h_custom h with
  | None => inner
  | Some ev =>
      match srcUrn with
      | Some u => if String.eqb u ev then inner else None
      | None => None
      end
  end.

(** The functions called at the bound node when an event of type [ty]
    whose target is the head of [path] reaches it. *)
Definition dispatch_from (path : list Element) (ty : string) (srcUrn : option string)
    (ls : list Events.Listener) : list nat :=
  omap (fun l => if String.eqb (Events.l_type l) ty
                 then run_handler_from path srcUrn (Events.l_handler l) else None) ls.

(** Whether some element of the path satisfies the selector. *)
Definition some_match (sel : string) (path : list Element) : bool :=
  existsb (fun elem => match Selector.DOMElement_matches native sel elem with
                       | Normal b => b
                       | Throw _ => false
                       end) path.

End Host.

(** The closure identities handed out so far are below [next_id]. *)
Definition fresh (st : Events.State) : Prop :=
  forall l, In l (Events.listeners st) ->
    (h_id (Events.l_handler l) < Events.next_id st)%nat.

End Delegation.

(* ===================================================================== *)
(** ** [DOM.ready]                                                        *)
(* ===================================================================== *)

Module Ready.

(** The closure state of [DOM.ready]: [readyCallbacks] (an array, or
    [null] once the page has loaded), whether the [doScroll] polling
    interval is still set, and the calls [setTimeout(callback, 0)] made
    so far, in order. *)
Record State : Type := mkState {
  readyCallbacks : option (list nat);
  scrollInterval : bool;
  timers : list nat
}.

(** [pageLoaded()], the listener of [DOMContentLoaded], [load] and the
    polling interval. *)
Definition pageLoaded (st : State) : State :=
  match readyCallbacks st with
  | Some queue => mkState None false (timers st ++ queue)%list
  | None => mkState None false (timers st)
  end.

(** [DOM.ready(callback)] *)
Definition ready (callback : Value) (st : State) : Completion unit * State :=
  match callback with
  | VFun f =>
      match readyCallbacks st with
      | Some queue => (Normal tt, mkState (Some (queue ++ [f])%list) (scrollInterval st) (timers st))
      | None => (Normal tt, mkState None (scrollInterval st) (timers st ++ [f])%list)
      end
  | _ => (Throw (Thrown (makeError_typed "ready" "DOM")), st)
  end.

(** The state when the script has run: nothing queued, and [pageLoaded]
    already called if the document was loaded by then. *)
Definition init (polling already_loaded : bool) : State :=
  let st := mkState (Some []) polling [] in
  if already_loaded then pageLoaded st else st.

(** What happens afterwards: a call of [DOM.ready] with a function, or
    one of the load notifications. *)
Inductive Step : Type :=
| Register (f : nat)
| Loaded.

Definition step (st : State) (s : Step) : State :=
  match s with
  | Register f => snd (ready (VFun f) st)
  | Loaded => pageLoaded st
  end.

Definition run (steps : list Step) (st : State) : State := fold_left step steps st.

(** The functions registered by the steps, in order. *)
Definition registered (steps : list Step) : list nat :=
  omap (fun s => match s with Register f => Some f | Loaded => None end) steps.

Definition is_loaded (s : Step) : bool :=
  match s with Loaded => true | Register _ => false end.

Definition pending (st : State) : list nat := default [] (readyCallbacks st).

End Ready.

(* ===================================================================== *)
(** ** Sequences of [DOM.watch] calls                                     *)
(* ===================================================================== *)

Module WatchLog.

(** A call [DOM.watch(selector, callback)] made at time [at_time]. *)
Record Call : Type := mkCall {
  at_time : N;
  selector : string;
  callback : nat
}.

Section Host.
Variable caps : Watch.Caps.
Variable behaviorUrl : string.
Variable cssPrefix : string.
Variable findAll : string -> list nat.

Definition run (calls : list Call) (st : Watch.State) : Watch.State :=
  fold_left (fun st c =>
               Watch.watch caps behaviorUrl cssPrefix findAll
                 (at_time c) (selector c) (callback c) st) calls st.

End Host.



End WatchLog.

(* ===================================================================== *)
(** ** Class names: [hasClass], [addClass], [removeClass], [toggleClass]  *)
(* ===================================================================== *)

Module Classes.

(** [\s] on ASCII: TAB, LF, VT, FF, CR, SPACE. *)
Definition is_ws (c : ascii) : bool :=
  let n := code c in
  ((n =? 9) || (n =? 10) || (n =? 11) || (n =? 12) || (n =? 13) || (n =? 32))%N.

(** [str.replace(rwsleft, "")]: the leading white space goes. *)
Fixpoint trim_left (s : string) : string :=
  match s with
  | EmptyString => EmptyString
  | String c s' => if is_ws c then trim_left s' else s
  end.

(** [str.replace(rwsright, "")]: the trailing white space goes. *)
Fixpoint trim_right (s : string) : string :=
  match s with
  | EmptyString => EmptyString
  | String c s' =>
      match trim_right s' with
      | EmptyString => if is_ws c then EmptyString else String c EmptyString
      | r => String c r
      end
  end.

(** [_.trim(str)] *)
Definition trim (s : string) : string := trim_right (trim_left s).

(** The methods below are the ones [makeClassesMethod] builds on a host
    without [classList]; they read and write [this._node.className],
    which is the state threaded here. *)

(** The strategy of [hasClass] (line 938). *)
Definition hasClass_strategy (className cls : string) : bool :=
  found (Selector.replace_rclass (" " +:+ className +:+ " ")) (" " +:+ cls +:+ " ").

(** [hasClass(classNames)]: [_.every] over [classNames.split(" ")]. *)
Definition hasClass (className classNames : string) : bool :=
  fold_left (fun result cls => result && hasClass_strategy className cls)
    (split " " classNames) true.

(** The strategy of [addClass] (line 950): it asks the public [hasClass]. *)
Definition addClass_strategy (className cls : string) : string :=
  if negb (hasClass className cls) then className +:+ " " +:+ cls else className.

(** [addClass(classNames)]: [_.forEach] over [classNames.split(" ")]. *)
Definition addClass (className classNames : string) : string :=
  fold_left addClass_strategy (split " " classNames) className.

(** The strategy of [removeClass] (line 963): the first occurrence of the
    padded name is replaced by a space. *)
Definition removeClass_strategy (className cls : string) : string :=
  trim (replace_first (" " +:+ cls +:+ " ") " "
          (Selector.replace_rclass (" " +:+ className +:+ " "))).

Definition removeClass (className classNames : string) : string :=
  fold_left removeClass_strategy (split " " classNames) className.

(** The strategy of [toggleClass] (line 975): add, and remove if adding
    changed nothing. *)
Definition toggleClass_strategy (className cls : string) : string :=
  let oldClassName := className in
  let added := addClass className cls in
  if String.eqb oldClassName added then removeClass added cls else added.

Definition toggleClass (className classNames : string) : string :=
  fold_left toggleClass_strategy (split " " classNames) className.

(** The function [makeClassesMethod] returns, for the three methods that
    return [this]: the argument must be a string. *)
Definition classes_method (methodName : string) (method : string -> string -> string)
    (className : string) (classNames : Value) : Completion unit * string :=
  match classNames with
  | VStr names => (Normal tt, method className names)
  | _ => (Throw (Thrown (makeError methodName)), className)
  end.

(** A class name as [split] yields them and as class attributes hold
    them: no space and none of the characters of [rclass]. *)
Definition plain (cls : string) : bool :=
  all_chars (fun c => negb (Ascii.eqb c " ") && negb (Selector.rclass_char c)) cls.

End Classes.

(* ===================================================================== *)
(** ** Traversing: [next], [prev], [parent], [firstChild], [lastChild],
       [nextAll], [prevAll], [children]                                   *)
(* ===================================================================== *)

Module Traverse.

(** A node met while following [it[propertyName]]: its [nodeType] and
    what the matcher reads of it. *)
Record Link : Type := mkLink {
  nodeType : N;
  elem : Element
}.

Definition link_of (n : Create.HNode) : Link :=
  mkLink (if Create.is_element n then 1%N else 3%N) (Create.element_of n).

Section Host.
Variable native : Element -> string -> bool.

(** [selector ? new SelectorMatcher(selector) : null], for a selector
    that is a string or left out. *)
Definition matcher_of (selector : option string) : option Selector.Matcher :=
  match selector with
  | Some s =>
      if String.eqb s EmptyString then None
      else match Selector.ctr s false with
           | Normal m => Some m
           | Throw _ => None
           end
  | None => None
  end.

(** [it.nodeType === 1 && (!matcher || matcher.test(it))] *)
Definition accepts (m : option Selector.Matcher) (it : Link) : bool :=
  (nodeType it =? 1)%N
  && match m with
     | None => true
     | Some m => Selector.test native m (elem it)
     end.

(** The loop of [makeTraversingMethod] without [multiple]:
    [while (it = it[propertyName]) if (accepted) break;], over the nodes
    that [it[propertyName]] yields in turn.  The result is the node the
    loop stops at; when there is none [DOMElement(it)] is the null
    element. *)
Fixpoint walk_first (m : option Selector.Matcher) (chain : list Link) : option Link :=
  match chain with
  | [] => None
  | it :: rest => if accepts m it then Some it else walk_first m rest
  end.

(** The loop with [multiple]: the accepted nodes are pushed in turn. *)
Fixpoint walk_all (m : option Selector.Matcher) (chain : list Link) : list Link :=
  match chain with
  | [] => []
  | it :: rest => if accepts m it then it :: walk_all m rest else walk_all m rest
  end.

(** The nodes that [it = it.firstChild] yields from a node of a subtree,
    and those of [it = it.lastChild]. *)
Fixpoint firstChild_chain (n : Create.HNode) : list Create.HNode :=
  match n with
  | Create.HElem _ _ (c :: _) => c :: firstChild_chain c
  | _ => []
  end.

Fixpoint lastChild_chain (n : Create.HNode) : list Create.HNode :=
  match n with
  | Create.HElem _ _ children =>
      (fix last_of (l : list Create.HNode) : list Create.HNode :=
         match l with
         | [] => []
         | [c] => c :: lastChild_chain c
         | _ :: rest => last_of rest
         end) children
  | Create.HText _ => []
  end.

(** [firstChild(selector)], [lastChild(selector)] on the wrapper of a
    node of a subtree. *)
Definition firstChild (n : Create.HNode) (selector : option string) : option Link :=
  walk_first (matcher_of selector) (map link_of (firstChild_chain n)).

Definition lastChild (n : Create.HNode) (selector : option string) : option Link :=
  walk_first (matcher_of selector) (map link_of (lastChild_chain n)).

(** [_.filter(list, testFn)]: [testFn] is called with the element and its
    index. *)
Definition filter_indexed {A} (testFn : A -> nat -> bool) (l : list A) : list A :=
  map fst (List.filter (fun p => testFn (fst p) (snd p))
             (combine l (seq 0 (length l)))).

(** The callback of the non-W3C branch of [children],
    [function(result, elem) { return elem.nodeType === 1; }]: [_.filter]
    passes it the element and the index, so [elem] is a number, of which
    [nodeType] is [undefined]. *)
Definition ie_children_test (result : Link) (elem : nat) : bool := false.

(** [children(selector)]: [this._node.children] (the element children),
    passed through the filter above on a host that is not W3C compliant,
    then filtered by the matcher. *)
Definition children (isW3Compliant : bool) (n : Create.HNode) (selector : option string)
  : list Link :=
  match n with
  | Create.HElem _ _ cs =>
      let children := map link_of (List.filter Create.is_element cs) in
      let children :=
        if isW3Compliant then children else filter_indexed ie_children_test children in
      match matcher_of selector with
      | None => children
      | Some m => List.filter (fun l => Selector.test native m (elem l)) children
      end
  | Create.HText _ => []
  end.

End Host.

End Traverse.

(* ===================================================================== *)
(** ** [DOMElement.prototype.toString]                                    *)
(* ===================================================================== *)

Module Serialize.

(** An [option] element of a select: [selected], whether it has a
    [value] attribute, its [value] and its [text]. *)
Record Choice : Type := mkChoice {
  selected : bool;
  has_value : bool;
  c_value : string;
  c_text : string
}.

(** A member of [form.elements]; [f_type] is [None] where the host has
    no [type] property (a fieldset). *)
Record Field : Type := mkField {
  f_name : string;
  f_type : option string;
  f_value : string;
  f_checked : bool;
  f_options : list Choice
}.

(** The node behind the wrapper: one with [elements] (a form), one with a
    [form] (a control, of which [value] is read), or any other (of which
    [outerHTML] is read). *)
Inductive Node : Type :=
| Form (elements : list Field)
| Control (value : string)
| Other (outerHTML : string).

(** [.replace(/%20/g, "+")] *)
Fixpoint plus_for_20 (s : string) : string :=
  match s with
  | String "%" (String "2" (String "0" rest)) => String "+" (plus_for_20 rest)
  | String c rest => String c (plus_for_20 rest)
  | EmptyString => EmptyString
  end.

Section Host.
Variable encodeURIComponent : string -> string.

Definition makePair (name value : string) : string :=
  encodeURIComponent name +:+ "=" +:+ encodeURIComponent value.

(** [parts.push(pair)]; [parts] is [undefined] ([None]) once the callback
    has returned nothing. *)
Definition push (parts : option (list string)) (pair : string)
  : Completion (option (list string)) :=
  match parts with
  | Some l => Normal (Some (l ++ [pair])%list)
  | None => Throw TypeError
  end.

(** The loop over [field.options] of a select. *)
Fixpoint push_selected (name : string) (options : list Choice) (parts : option (list string))
  : Completion (option (list string)) :=
  match options with
  | [] => Normal parts
  | o :: rest =>
      if selected o then
        match push parts (makePair name (if has_value o then c_value o else c_text o)) with
        | Normal parts' => push_selected name rest parts'
        | Throw e => Throw e
        end
      else push_selected name rest parts
  end.

Definition type_in (t : option string) (names : list string) : bool :=
  match t with
  | Some s => existsb (String.eqb s) names
  | None => false
  end.

(** The callback given to [_.reduce]: it returns [parts] for a named
    field and nothing for a field without name. *)
Definition collect (parts : option (list string)) (field : Field)
  : Completion (option (list string)) :=
  if negb (String.eqb (f_name field) EmptyString) then
    if type_in (f_type field) ["select-one"; "select-multiple"] then
      push_selected (f_name field) (f_options field) parts
    else if match f_type field with None => true | Some _ => false end
            || type_in (f_type field) ["file"; "submit"; "reset"; "button"] then
      Normal parts
    else if type_in (f_type field) ["radio"; "checkbox"] && negb (f_checked field) then
      Normal parts
    else push parts (makePair (f_name field) (f_value field))
  else Normal None.

(** [_.reduce(el.elements, callback, [])]: the initial value is an array,
    so the first element is passed to the callback like the others. *)
Fixpoint reduce (fields : list Field) (parts : option (list string))
  : Completion (option (list string)) :=
  match fields with
  | [] => Normal parts
  | field :: rest =>
      match collect parts field with
      | Normal parts' => reduce rest parts'
      | Throw e => Throw e
      end
  end.

Definition toString (n : Node) : Completion string :=
  match n with
  | Form elements =>
      match reduce elements (Some []) with
      | Normal (Some parts) => Normal (plus_for_20 (join "&" parts))
      | Normal None => Throw TypeError   (* undefined.join *)
      | Throw e => Throw e
      end
  | Control value => Normal value
  | Other outerHTML => Normal outerHTML
  end.

(** The pairs a named field contributes. *)
Definition pairs_of (field : Field) : list string :=
  if type_in (f_type field) ["select-one"; "select-multiple"] then
    map (fun o => makePair (f_name field) (if has_value o then c_value o else c_text o))
        (List.filter selected (f_options field))
  else if match f_type field with None => true | Some _ => false end
          || type_in (f_type field) ["file"; "submit"; "reset"; "button"] then []
  else if type_in (f_type field) ["radio"; "checkbox"] && negb (f_checked field) then []
  else [makePair (f_name field) (f_value field)].

End Host.

Definition named (field : Field) : bool := negb (String.eqb (f_name field) EmptyString).

End Serialize.

(* ===================================================================== *)
(** ** What [find] and [findAll] return; [sandbox.fragment]               *)
(* ===================================================================== *)

Module FindReturn.

(** The value of [multiple ? new DOMElementCollection(elements) : DOMElement(elements)]:
    a collection of wrappers, the wrapper of a node, the null element, or
    the wrapper that [DOMElement] makes of a node list. *)
Inductive Returned (N : Type) : Type :=
| RCollection (nodes : list N)
| RElement (node : N)
| RNull
| RListWrapper (nodes : list N).
Arguments RCollection {N} nodes.
Arguments RElement {N} node.
Arguments RNull {N}.
Arguments RListWrapper {N} nodes.

(** The [return] of [find].  [new DOMElementCollection(elements)] runs
    [_.map(elements, DOMElement)], which reads [elements.length]: that
    throws for [undefined] and [null]; an element has no [length], so
    the loop does not run. *)
Definition finish {N} (multiple : bool) (elements : Find.Found N) : Completion (Returned N) :=
  if multiple then
    match elements with
    | Find.Many l => Normal (RCollection l)
    | Find.One (Some _) => Normal (RCollection [])
    | Find.One None | Find.Undefined => Throw TypeError
    end
  else
    match elements with
    | Find.Many l => Normal (RListWrapper l)
    | Find.One (Some n) => Normal (RElement n)
    | Find.One None | Find.Undefined => Normal RNull
    end.

Definition returned {N} (multiple : bool) (r : Completion (Find.Found N) * Find.Root)
  : Completion (Returned N) :=
  match fst r with
  | Normal elements => finish multiple elements
  | Throw e => Throw e
  end.

End FindReturn.

Module Fragment.

(** [_.forEach(list, callback)] over a live collection out of which the
    callback takes the node it is given ([appendChild] moves the node
    into the fragment): [n] is the length read before the loop, [i] the
    index, [live] the collection as it is now.  [list[i]] past the end is
    [undefined], which [appendChild] refuses. *)
Fixpoint move_each {A} (steps i : nat) (live moved : list A) : Completion (list A) :=
  match steps with
  | O => Normal moved
  | S steps' =>
      match nth_error live i with
      | Some x =>
          move_each steps' (S i) (firstn i live ++ skipn (S i) live)%list (moved ++ [x])%list
      | None => Throw TypeError
      end
  end.

(** [sandbox.fragment(html)]: the children of the fragment. *)
Definition fragment (html : string) : Completion (list Create.HNode) :=
  let children := Create.sandbox_parse html in
  move_each (length children) 0 children [].

End Fragment.

(* ===================================================================== *)
(** ** [show] and [hide]                                                  *)
(* ===================================================================== *)

Module Visibility.

Section Host.
Variable caps : Props.Caps.
Variable ToString : Value -> string.
Variable call : nat -> Value -> Completion Value.

(** [DOMElement.prototype.show]: [this.set("hidden", false)] *)
Definition show (n : Props.Node) : Completion unit * Props.Node :=
  Props.set caps ToString call (VStr "hidden") (VBool false) n.

(** [DOMElement.prototype.hide]: [this.set("hidden", true)] *)
Definition hide (n : Props.Node) : Completion unit * Props.Node :=
  Props.set caps ToString call (VStr "hidden") (VBool true) n.

End Host.

End Visibility.

(* ===================================================================== *)
(** ** Styles: [cssHooks], [getStyle], [setStyle]                         *)
(* ===================================================================== *)

Module Style.

(** [str.substr(start, len)] for [len] possibly negative. *)
Fixpoint take_chars (n : nat) (s : string) : string :=
  match n, s with
  | O, _ => EmptyString
  | S n', String c s' => String c (take_chars n' s')
  | S _, EmptyString => EmptyString
  end.

Definition substr (s : string) (start : nat) (len : Z) : string :=
  take_chars (Z.to_nat len) (drop_chars start s).

(** [propName.indexOf("-", 1)] *)
Definition indexOf_dash_from_1 (propName : string) : Z :=
  match propName with
  | EmptyString => -1
  | String _ rest => indexOf_from 1 rest "-"
  end.

Definition is_line_end (c : ascii) : bool := ((code c =? 10) || (code c =? 13))%N.

Definition upper_char (c : ascii) : ascii :=
  if is_lower c then ascii_of_N (code c - 32) else c.

(** [propName.replace(rdash, dashSeparatedToCamelCase)]: every dash that
    is followed by a character (not a line end) goes, and the character is
    put in upper case. *)
Fixpoint camelCase (s : string) : string :=
  match s with
  | String "-" ((String c rest) as tail) =>
      if is_line_end c then String "-" (camelCase tail)
      else String (upper_char c) (camelCase rest)
  | String c rest => String c (camelCase rest)
  | EmptyString => EmptyString
  end.

(** [s.charAt(0).toLowerCase() + s.substr(1)] *)
Definition lower_first (s : string) : string :=
  match s with
  | String c rest => String (lower_char c) rest
  | EmptyString => EmptyString
  end.

(** A setter of [cssHooks]: the one of a vendor property assigns
    [style[stylePropName]], the one of [width], [height], [padding],
    [margin] assigns [style[propName]] and appends [px] to a number. *)
Inductive Setter : Type :=
| set_prop (stylePropName : string)
| set_px (propName : string).

Record Hook : Type := mkHook {
  hook_get : option string;   (* the property the getter reads *)
  hook_set : Setter
}.

Section Host.
(** [name in computed] for the computed style of the root element. *)
Variable in_computed : string -> bool.

(** The body of the loop over [props] (lines 997-1017). *)
Definition add_hook (cssHooks : gmap string Hook) (propName : string) : gmap string Hook :=
  let prefix :=
    match propName with
    | String "-" _ => substr propName 1 (indexOf_dash_from_1 propName - 1)
    | _ => EmptyString   (* null *)
    end in
  let unprefixedName :=
    if String.eqb prefix EmptyString then propName
    else drop_chars (String.length prefix + 2) propName in
  let stylePropName := camelCase propName in
  let stylePropName :=
    if in_computed stylePropName then stylePropName else lower_first stylePropName in
  if String.eqb stylePropName propName then cssHooks
  else <[unprefixedName := mkHook (Some stylePropName) (set_prop stylePropName)]> cssHooks.

Definition px_names : list string := split " " "width height padding margin".

(** [cssHooks] for the property names [props] that the computed style
    lists. *)
Definition cssHooks (props : list string) : gmap string Hook :=
  fold_left (fun hooks propName => <[propName := mkHook None (set_px propName)]> hooks)
    px_names (fold_left add_hook props ∅).

End Host.




Section Methods.
Variable hooks : gmap string Hook.
(** [window.getComputedStyle(this._node)] / [this._node.currentStyle]. *)
Variable computed : gmap string Value.





End Methods.

(** The two shapes of an entry of [cssHooks]. *)
Definition well_formed (name : string) (h : Hook) : Prop :=
  (exists p, hook_get h = Some p /\ hook_set h = set_prop p)
  \/ (hook_get h = None /\ hook_set h = set_px name).


End Style.

(* ===================================================================== *)
(** ** The selectors that [rquickIs] accepts                              *)
(* ===================================================================== *)

Module QuickGrammar.

(** An identifier of the expression: a non-empty run of word characters
    and dashes. *)
Definition ident (s : string) : bool :=
  negb (String.eqb s EmptyString) && all_chars is_word_dash s.

Definition opt_ident (o : option string) : bool :=
  match o with Some m => ident m | None => true end.

(** The text of one optional group: the lead character, the identifier
    and the closing character, or nothing. *)
Definition part (lead : ascii) (close : option ascii) (o : option string) : string :=
  match o with
  | Some m =>
      String lead (m +:+ match close with
                         | Some cl => String cl EmptyString
                         | None => EmptyString
                         end)
  | None => EmptyString
  end.

(** The selector that spells the captures out: tag, [#id], [[attr]],
    [.class]. *)
Definition render (q : Selector.Quick) : string :=
  Selector.q_tag q
  +:+ part "#" None (Selector.q_id q)
  +:+ part "[" (Some "]"%char) (Selector.q_attr q)
  +:+ part "." None (Selector.q_class q).

Definition well_formed (q : Selector.Quick) : bool :=
  all_chars is_word (Selector.q_tag q)
  && opt_ident (Selector.q_id q)
  && opt_ident (Selector.q_attr q)
  && opt_ident (Selector.q_class q).

(** The string is empty or starts with a character that neither goes on
    an identifier nor is [lead]. *)
Definition boundary (lead : ascii) (rest : string) : bool :=
  match rest with
  | EmptyString => true
  | String c _ => negb (is_word_dash c) && negb (Ascii.eqb c lead)
  end.

End QuickGrammar.

(* ===================================================================== *)
(** ** Theorems                                                           *)
(* ===================================================================== *)

(** ** Strings *)

Lemma split_without_separator sep s :
  contains_char sep s = false -> split sep s = [s].
Proof.
  induction s as [|c s IH]; cbn; [reflexivity|].
  intros H. apply orb_false_iff in H as [Hc Hs].
  rewrite Hc, (IH Hs). reflexivity.
Qed.

Lemma app_cons c a b : String c a +:+ b = String c (a +:+ b).
Proof. reflexivity. Qed.

Lemma app_empty_l a : EmptyString +:+ a = a.
Proof. reflexivity. Qed.

Lemma app_empty_r a : a +:+ EmptyString = a.
Proof. induction a as [|c a IH]; [reflexivity|]. rewrite app_cons, IH. reflexivity. Qed.

Lemma app_assoc_str a b c : (a +:+ b) +:+ c = a +:+ b +:+ c.
Proof.
  induction a as [|x a IH]; [reflexivity|]. rewrite !app_cons, IH. reflexivity.
Qed.

Lemma split_not_nil sep s : split sep s <> [].
Proof.
  destruct s as [|c s]; cbn; [discriminate|].
  destruct (Ascii.eqb c sep); [discriminate|].
  destruct (split sep s); discriminate.
Qed.

Lemma prefix_spec sub s :
  String.prefix sub s = true <-> exists post, s = sub +:+ post.
Proof.
  revert s. induction sub as [|c sub IH]; intros s.
  - split; [intros _; exists s; reflexivity|]. destruct s; reflexivity.
  - destruct s as [|d s]; cbn [String.prefix].
    + split; [discriminate|intros [post H]; discriminate].
    + destruct (ascii_dec c d) as [->|Hne].
      * rewrite IH. split; intros [post H]; exists post.
        -- rewrite app_cons, H. reflexivity.
        -- rewrite app_cons in H. congruence.
      * split; [discriminate|]. intros [post H]. rewrite app_cons in H. congruence.
Qed.

Lemma indexOf_from_spec sub s : forall i, 0 <= i ->
  (indexOf_from i s sub = -1 \/ i <= indexOf_from i s sub)
  /\ (indexOf_from i s sub <> -1 <-> occurs_in sub s).
Proof.
  induction s as [|c s IH]; intros i Hi; cbn [indexOf_from].
  - destruct (String.prefix sub EmptyString) eqn:Hp.
    + split; [right; lia|]. split; [intros _|intros _; lia].
      apply prefix_spec in Hp as [post Hp]. exists EmptyString, post. exact Hp.
    + split; [left; reflexivity|]. split; [congruence|].
      intros (pre & post & H). exfalso.
      destruct pre; [|discriminate].
      assert (String.prefix sub EmptyString = true) by (apply prefix_spec; exists post; exact H).
      congruence.
  - destruct (String.prefix sub (String c s)) eqn:Hp.
    + split; [right; lia|]. split; [intros _|intros _; lia].
      apply prefix_spec in Hp as [post Hp]. exists EmptyString, post. exact Hp.
    + destruct (IH (i + 1) ltac:(lia)) as [Hrange Hocc]. split; [lia|].
      rewrite Hocc. split; intros (pre & post & H).
      * exists (String c pre), post. rewrite app_cons, H. reflexivity.
      * destruct pre as [|d pre].
        -- exfalso.
           assert (String.prefix sub (String c s) = true)
             by (apply prefix_spec; exists post; exact H).
           congruence.
        -- rewrite app_cons in H. injection H as _ H. exists pre, post. exact H.
Qed.

Lemma found_spec s sub : found s sub = true <-> occurs_in sub s.
Proof.
  unfold found, indexOf, bitnot.
  destruct (indexOf_from_spec sub s 0 ltac:(lia)) as [_ <-].
  rewrite negb_true_iff, Z.eqb_neq. unfold Z.lnot. lia.
Qed.

Section WrapFacts.
Import Wrap.

(** The wrapper constructors read [node.__dom__] and never assign it. *)
Lemma DOMElement_keeps_expando element w :
  node_dom (snd (DOMElement element w)) = node_dom w.
Proof.
  unfold DOMElement. destruct element as [n|]; [destruct (node_dom w !! n)|]; reflexivity.
Qed.

Lemma DOMNode_keeps_expando node w :
  node_dom (snd (DOMNode node w)) = node_dom w.
Proof.
  unfold DOMNode. destruct node as [n|]; [destruct (node_dom w !! n)|]; reflexivity.
Qed.

(** C1 (evaluation of the code): for a host node whose [__dom__] expando is
    unset -- which the constructors leave unset -- a second call
    [DOMElement(n)] (and likewise a second [DOMNode(n)]) allocates a new
    wrapper object and returns it, a reference different from the one the
    first call returned. *)
Theorem wrap_twice_allocates_twice (n : nat) (w : World) :
  node_dom w !! n = None ->
  fst (DOMElement (Some n) (snd (DOMElement (Some n) w))) <> fst (DOMElement (Some n) w)
  /\ fst (DOMNode (Some n) (snd (DOMNode (Some n) w))) <> fst (DOMNode (Some n) w)
  /\ length (heap (snd (DOMElement (Some n) (snd (DOMElement (Some n) w)))))
     = S (S (length (heap w))).
Proof.
  intros Hn. unfold DOMElement, DOMNode. rewrite Hn. cbn. rewrite Hn. cbn.
  rewrite !length_app. cbn. repeat split; lia.
Qed.

Lemma wrap_twice_allocates_twice_witness :
  fst (DOMElement (Some 7%nat) (snd (DOMElement (Some 7%nat) empty_world)))
    <> fst (DOMElement (Some 7%nat) empty_world)
  /\ fst (DOMNode (Some 7%nat) (snd (DOMNode (Some 7%nat) empty_world)))
    <> fst (DOMNode (Some 7%nat) empty_world)
  /\ length (heap (snd (DOMElement (Some 7%nat) (snd (DOMElement (Some 7%nat) empty_world)))))
     = S (S (length (heap empty_world))).
Proof. apply (wrap_twice_allocates_twice 7%nat empty_world). reflexivity. Defined.


End WrapFacts.

Section SelectorFacts.
Import Selector.

Example quick_full : rquickIs_exec "div#main[data-x].item"
  = Some (mkQuick "div" (Some "main") (Some "data-x") (Some "item")).
Proof. reflexivity. Qed.

Example quick_none : rquickIs_exec "ul > li" = None.
Proof. reflexivity. Qed.

Example quick_bad_group : rquickIs_exec "div#" = None.
Proof. reflexivity. Qed.

Example quick_test_space : forall native,
  DOMElement_matches native ".a" (mkElement "DIV" {[ "class" := "a b" ]}) = Normal true.
Proof. intros. vm_compute. reflexivity. Qed.

(** *** The quick class test against class-list membership *)

Ltac norm_app :=
  repeat first [rewrite app_cons | rewrite app_empty_l | rewrite app_assoc_str].
Ltac norm_app_in H :=
  repeat first [rewrite app_cons in H | rewrite app_empty_l in H | rewrite app_assoc_str in H].

(** Two strings without a space that are followed by a space are the
    same string once the wholes are the same. *)
Lemma first_space_unique x y t u :
  contains_char " " x = false -> contains_char " " y = false ->
  x +:+ String " " t = y +:+ String " " u -> x = y.
Proof.
  revert y. induction x as [|a x IH]; intros [|b y] Hx Hy H; norm_app_in H.
  - reflexivity.
  - cbn in Hy. injection H as Hb _. subst b. discriminate.
  - cbn in Hx. injection H as Ha _. subst a. discriminate.
  - injection H as -> H.
    cbn in Hx, Hy. apply orb_false_iff in Hx as [_ Hx]. apply orb_false_iff in Hy as [_ Hy].
    rewrite (IH y Hx Hy H). reflexivity.
Qed.

(** A space found in [x] followed by a space and [t] lies behind [x]
    when [x] has none. *)
Lemma space_behind x t pre rest :
  contains_char " " x = false ->
  x +:+ String " " t = pre +:+ String " " rest ->
  exists pre', pre = x +:+ pre' /\ String " " t = pre' +:+ String " " rest.
Proof.
  revert pre. induction x as [|a x IH]; intros pre Hx H; norm_app_in H.
  - exists pre. split; [reflexivity|exact H].
  - cbn in Hx. apply orb_false_iff in Hx as [Ha Hx].
    destruct pre as [|b pre]; norm_app_in H.
    + injection H as -> _. discriminate.
    + injection H as -> H.
      destruct (IH pre Hx H) as (pre' & -> & H'). exists pre'.
      split; [reflexivity|exact H'].
Qed.

Lemma occurs_padded cls x t :
  contains_char " " x = false -> contains_char " " cls = false ->
  occurs_in (" " +:+ cls +:+ " ") (String " " (x +:+ String " " t))
  <-> cls = x \/ occurs_in (" " +:+ cls +:+ " ") (String " " t).
Proof.
  intros Hx Hc. unfold occurs_in. split.
  - intros (pre & post & H). norm_app_in H. destruct pre as [|p pre]; norm_app_in H.
    + left. injection H as H. symmetry.
      exact (first_space_unique x cls t post Hx Hc H).
    + right. injection H as _ H.
      destruct (space_behind x t pre _ Hx H) as (pre' & _ & H').
      exists pre', post. norm_app. exact H'.
  - intros [->|(pre & post & H)].
    + exists EmptyString, t. norm_app. reflexivity.
    + exists (String " " (x +:+ pre)), post. norm_app_in H. norm_app. rewrite <- H. reflexivity.
Qed.

Lemma occurs_too_long cls :
  occurs_in (" " +:+ cls +:+ " ") " " -> False.
Proof.
  intros (pre & post & H). norm_app_in H.
  destruct pre as [|p pre]; norm_app_in H; injection H as H.
  - destruct cls; norm_app_in H; discriminate.
  - destruct pre; norm_app_in H; discriminate.
Qed.

Lemma not_space_no_blank cur :
  all_chars (fun c => negb (is_space c)) cur = true -> contains_char " " cur = false.
Proof.
  induction cur as [|c cur IH]; [reflexivity|]. cbn. intros H.
  apply andb_true_iff in H as [Hc H]. rewrite (IH H), orb_false_r.
  destruct (Ascii.eqb_spec c " ") as [->|_]; [discriminate|reflexivity].
Qed.

Lemma all_chars_app p a b :
  all_chars p (a +:+ b) = all_chars p a && all_chars p b.
Proof.
  induction a as [|c a IH]; [reflexivity|].
  rewrite app_cons. cbn. rewrite IH, andb_assoc. reflexivity.
Qed.

(** The tokens of a class attribute separated by spaces only are the
    names that occur in it between spaces. *)
Lemma tokens_acc_spec cls s : forall cur,
  cls <> EmptyString -> contains_char " " cls = false ->
  space_separated s = true ->
  all_chars (fun c => negb (is_space c)) cur = true ->
  In cls (tokens_acc cur s)
  <-> occurs_in (" " +:+ cls +:+ " ") (String " " (cur +:+ s +:+ " ")).
Proof.
  intros cur Hne Hc. revert cur.
  induction s as [|c s IH]; intros cur Hs Hcur.
  - cbn [tokens_acc]. norm_app.
    rewrite (occurs_padded cls cur EmptyString (not_space_no_blank cur Hcur) Hc).
    destruct cur as [|a cur].
    + split; [intros []|]. intros [H|H]; [congruence|exact (occurs_too_long cls H)].
    + cbn. split; [intros [H|[]]; left; congruence|].
      intros [H|H]; [left; congruence|destruct (occurs_too_long cls H)].
  - cbn [tokens_acc]. unfold space_separated in Hs. cbn [all_chars] in Hs.
    apply andb_true_iff in Hs as [Hch Hs].
    destruct (is_space c) eqn:Hsp.
    + cbn in Hch. apply Ascii.eqb_eq in Hch. subst c. norm_app.
      rewrite (occurs_padded cls cur (s +:+ " ") (not_space_no_blank cur Hcur) Hc).
      rewrite in_app_iff, (IH EmptyString Hs eq_refl). norm_app.
      destruct cur as [|a cur]; cbn [In].
      * split; [intros [[]|H]; right; exact H|]. intros [H|H]; [congruence|right; exact H].
      * split; [intros [[H|[]]|H]; [left; congruence|right; exact H]|].
        intros [H|H]; [left; left; congruence|right; exact H].
    + assert (Hcur' : all_chars (fun c => negb (is_space c)) (cur +:+ String c EmptyString) = true).
      { rewrite all_chars_app, Hcur. cbn. rewrite Hsp. reflexivity. }
      rewrite (IH _ Hs Hcur'). norm_app. reflexivity.
Qed.

Lemma class_test_agrees cls cn :
  cls <> EmptyString -> contains_char " " cls = false ->
  space_separated cn = true ->
  found (" " +:+ cn +:+ " ") (" " +:+ cls +:+ " ") = bool_decide (cls ∈ tokens cn).
Proof.
  intros Hne Hc Hs. apply eq_true_iff_eq.
  rewrite found_spec, bool_decide_eq_true, list_elem_of_In.
  unfold tokens. rewrite (tokens_acc_spec cls cn EmptyString Hne Hc Hs eq_refl).
  norm_app. reflexivity.
Qed.

Lemma span_all p s : forall a b, span p s = (a, b) -> all_chars p a = true.
Proof.
  induction s as [|c s IH]; intros a b H; cbn in H.
  - injection H as <- _. reflexivity.
  - destruct (p c) eqn:Hp.
    + destruct (span p s) as [a' b'] eqn:E. injection H as <- _.
      cbn. rewrite Hp. exact (IH a' b' eq_refl).
    + injection H as <- _. reflexivity.
Qed.

Lemma opt_group_ident lead close s m rest :
  opt_group lead close s = Some (Some m, rest) ->
  m <> EmptyString /\ all_chars is_word_dash m = true.
Proof.
  unfold opt_group. destruct s as [|c s]; [discriminate|].
  destruct (Ascii.eqb c lead); [|discriminate].
  destruct (span is_word_dash s) as [a b] eqn:E.
  pose proof (span_all _ _ _ _ E) as Ha.
  destruct a as [|x a]; [discriminate|].
  destruct close as [cl|].
  - destruct b as [|c2 b]; [discriminate|].
    destruct (Ascii.eqb c2 cl); [|discriminate].
    intros [= <- _]. split; [discriminate|exact Ha].
  - intros [= <- _]. split; [discriminate|exact Ha].
Qed.

Lemma rquickIs_class sel q cls :
  rquickIs_exec sel = Some q -> q_class q = Some cls ->
  cls <> EmptyString /\ all_chars is_word_dash cls = true.
Proof.
  unfold rquickIs_exec. destruct (span is_word sel) as [tag r1].
  destruct (opt_group "#" None r1) as [[id r2]|]; [|discriminate].
  destruct (opt_group "[" (Some "]"%char) r2) as [[attr r3]|]; [|discriminate].
  destruct (opt_group "." None r3) as [[c r4]|] eqn:E; [|discriminate].
  destruct r4; [|discriminate]. intros [= <-]. cbn. intros ->.
  exact (opt_group_ident _ _ _ _ _ E).
Qed.

Lemma word_dash_not_blank c : is_word_dash c = true -> Ascii.eqb c " " = false.
Proof.
  destruct (Ascii.eqb_spec c " ") as [->|_]; [discriminate|reflexivity].
Qed.

Lemma ident_no_blank m : all_chars is_word_dash m = true -> contains_char " " m = false.
Proof.
  induction m as [|c m IH]; [reflexivity|]. cbn. intros H.
  apply andb_true_iff in H as [Hc H]. rewrite (word_dash_not_blank c Hc), (IH H). reflexivity.
Qed.

Lemma str_falsy_lower s : str_falsy (toLowerCase s) = str_falsy s.
Proof. destruct s; reflexivity. Qed.

(** On the selectors of the quick grammar and the elements whose class
    attribute separates its names by spaces only, [SelectorMatcher.test]
    returns what the generic path returns: tag-name equality, id
    equality, attribute presence, class-list membership. *)
Theorem quick_test_agrees (native : Element -> string -> bool)
    (sel : string) (q : Quick) (el : Element) :
  rquickIs_exec sel = Some q ->
  space_separated (className el) = true ->
  DOMElement_matches native sel el = Normal (generic_compound q el)
  /\ generic_test sel el = Some (generic_compound q el).
Proof.
  intros Hq Hs. unfold DOMElement_matches, ctr, generic_test. rewrite Hq. split; [|reflexivity].
  f_equal. unfold test, generic_compound. cbn [quick q_tag q_id q_attr q_class].
  rewrite str_falsy_lower. f_equal.
  destruct (q_class q) as [cls|] eqn:Hc; [|reflexivity]. cbn [option_map].
  destruct (rquickIs_class sel q cls Hq Hc) as [Hne Hid].
  apply class_test_agrees; [exact Hne|exact (ident_no_blank cls Hid)|exact Hs].
Qed.

Lemma quick_test_agrees_witness :
  DOMElement_matches (fun _ _ => false) "li#x[title].b" (mkElement "LI" {[ "id" := "x"; "title" := "t"; "class" := "a b" ]})
  = Normal (generic_compound (mkQuick "li" (Some "x") (Some "title") (Some "b"))
              (mkElement "LI" {[ "id" := "x"; "title" := "t"; "class" := "a b" ]}))
  /\ generic_test "li#x[title].b" (mkElement "LI" {[ "id" := "x"; "title" := "t"; "class" := "a b" ]})
     = Some (generic_compound (mkQuick "li" (Some "x") (Some "title") (Some "b"))
               (mkElement "LI" {[ "id" := "x"; "title" := "t"; "class" := "a b" ]})).
Proof.
  apply (quick_test_agrees (fun _ _ => false) "li#x[title].b"
           (mkQuick "li" (Some "x") (Some "title") (Some "b"))
           (mkElement "LI" {[ "id" := "x"; "title" := "t"; "class" := "a b" ]})).
  - reflexivity.
  - reflexivity.
Defined.

Example tokens_example : tokens (" a  b" +:+ tab +:+ "c ") = ["a"; "b"; "c"].
Proof. reflexivity. Qed.

(** C2 (evaluation of the code): on the quick selector [.a] and a [div]
    whose class attribute is [a TAB b], [SelectorMatcher.test] answers
    [false] whatever the host primitive is, while the generic path (class
    list membership) answers [true]; [hasClass], which normalises the
    separators first, answers [true] as well. *)
Theorem quick_test_misses_tab_separated_class :
  (forall native, DOMElement_matches native ".a" div_tabbed = Normal false)
  /\ generic_test ".a" div_tabbed = Some true
  /\ hasClass_strategy div_tabbed "a" = true.
Proof. repeat split. Qed.

End SelectorFacts.

Section EventFacts.
Import Events.
Variable caps : Caps.

Lemma fold_off_spec ty cb es : forall ls l,
  In l (fold_left (off_one caps ty cb) es ls) <->
  In l ls /\
  forall e, In e es -> off_matches ty cb e = true ->
    same_listener (if isW3Compliant caps then ty else "on" +:+ ty) (e_handler e)
      (if isW3Compliant caps then e_capturing e else false) l = false.
Proof.
  induction es as [|e es IH]; intros ls l; cbn [fold_left].
  - split; [intros H; split; [exact H|intros e []]|intros [H _]; exact H].
  - rewrite IH. unfold off_one.
    destruct (off_matches ty cb e) eqn:Hm.
    + destruct (isW3Compliant caps); unfold removeEventListener, detachEvent;
        rewrite filter_In, negb_true_iff; split.
      * intros [[Hl Hs] Hrest]; split; [exact Hl|].
        intros e' [<-|He'] Hm'; [exact Hs|apply Hrest; assumption].
      * intros [Hl Hall]; split; [split; [exact Hl|]|].
        -- apply Hall; [left; reflexivity|exact Hm].
        -- intros e' He' Hm'. apply Hall; [right; exact He'|exact Hm'].
      * intros [[Hl Hs] Hrest]; split; [exact Hl|].
        intros e' [<-|He'] Hm'; [exact Hs|apply Hrest; assumption].
      * intros [Hl Hall]; split; [split; [exact Hl|]|].
        -- apply Hall; [left; reflexivity|exact Hm].
        -- intros e' He' Hm'. apply Hall; [right; exact He'|exact Hm'].
    + split.
      * intros [Hl Hrest]; split; [exact Hl|].
        intros e' [<-|He'] Hm'; [congruence|apply Hrest; assumption].
      * intros [Hl Hall]; split; [exact Hl|].
        intros e' He' Hm'. apply Hall; [right; exact He'|exact Hm'].
Qed.

Lemma same_listener_refl l :
  same_listener (l_type l) (l_handler l) (l_capture l) l = true.
Proof.
  unfold same_listener. rewrite String.eqb_refl, Nat.eqb_refl, eqb_reflx. reflexivity.
Qed.

Lemma tracked_init : tracked caps init.
Proof. intros l []. Qed.

Lemma tracked_push st ls' e' n' :
  tracked caps st ->
  (forall l, In l ls' -> In l (listeners st)
     \/ (l_type l = listener_type caps (e_name e') /\ e_handler e' = l_handler l
         /\ l_capture l = (if isW3Compliant caps then e_capturing e' else false)
         /\ e_callback e' = h_callback (l_handler l))) ->
  tracked caps (mkState ls' (_events st ++ [e']) n').
Proof.
  intros Ht Hls l Hl. cbn [listeners _events] in *.
  destruct (Hls l Hl) as [Hold|Hnew].
  - destruct (Ht l Hold) as (e & He & Hrest).
    exists e. split; [apply in_or_app; left; exact He|exact Hrest].
  - exists e'. split; [apply in_or_app; right; left; reflexivity|exact Hnew].
Qed.

(** [on] keeps the registrations tracked. *)
Lemma tracked_on_one selector callback event st :
  tracked caps st -> tracked caps (on_one caps selector callback event st).
Proof.
  intros Ht. unfold on_one, listener_type.
  destruct (isW3Compliant caps) eqn:Hw; [|destruct (isCustom event)];
    apply tracked_push; try exact Ht; unfold listener_type; rewrite Hw;
    unfold addEventListener, attachEvent; intros l Hl.
  - destruct (existsb _ _); [left; exact Hl|].
    apply in_app_or in Hl as [Hl|[<-|[]]]; [left; exact Hl|right]. cbn. repeat split.
  - apply in_app_or in Hl as [Hl|[<-|[]]]; [left; exact Hl|right]. cbn. repeat split.
  - apply in_app_or in Hl as [Hl|[<-|[]]]; [left; exact Hl|right]. cbn. repeat split.
Qed.

Lemma on_string_single ty f callback st :
  contains_char " " ty = false ->
  on_string caps ty (VFun f) callback st = on_one caps VNull (VFun f) ty st.
Proof.
  intros Hsp. unfold on_string. cbn [typeof]. rewrite String.eqb_refl.
  rewrite (split_without_separator _ _ Hsp). reflexivity.
Qed.

(** After [off(type, f)], no registration of a tracked state is left that
    is filed under the hooked type and whose handler calls [f]. *)
Lemma off_leaves_none ty f st l :
  tracked caps st ->
  In l (listeners (snd (off caps (VStr ty) (VFun f) st))) ->
  l_type l = listener_type caps (hooked_name caps ty) ->
  h_callback (l_handler l) = VFun f -> False.
Proof.
  intros Ht Hl Hty Hcb. cbn in Hl.
  apply fold_off_spec in Hl as [Hl Hall].
  destruct (Ht l Hl) as (e & He & Hn & Hh & Hc & Hf).
  assert (Hname : e_name e = hooked_name caps ty).
  { rewrite Hty in Hn. unfold listener_type in Hn.
    destruct (isW3Compliant caps); [congruence|].
    symmetry. exact (String.app_inj "on" _ _ Hn). }
  assert (Hm : off_matches (hooked_name caps ty) (Some f) e = true).
  { unfold off_matches. rewrite Hname, String.eqb_refl, Hf, Hcb. cbn.
    apply Nat.eqb_refl. }
  specialize (Hall e He Hm). unfold listener_type in Hty.
  rewrite Hh, <- Hc, <- Hty, same_listener_refl in Hall. discriminate.
Qed.

Lemma run_handler_calls h f :
  run_handler None h = Some f -> h_callback h = VFun f.
Proof.
  unfold run_handler. destruct (h_custom h); [discriminate|].
  destruct (truthy (h_selector h)); [discriminate|].
  destruct (h_callback h); try discriminate. intros [= ->]. reflexivity.
Qed.

Lemma filter_none {A} (p : A -> bool) (l : list A) :
  (forall x, In x l -> p x = true -> False) -> List.filter p l = [].
Proof.
  intros H. destruct (List.filter p l) as [|x r] eqn:E; [reflexivity|].
  assert (Hx : In x (List.filter p l)) by (rewrite E; left; reflexivity).
  apply filter_In in Hx as [Hx Hp]. destruct (H x Hx Hp).
Qed.

(** Apart from [constructor], [off] and [fire] look under the name that
    [on] files the type under. *)
Lemma hooked_name_entry_name ty :
  ty <> "constructor" -> hooked_name caps ty = entry_name caps ty.
Proof.
  intros Hne. unfold hooked_name, entry_name, inherited_hook_name.
  destruct (eventHooks caps !! ty) as [h|]; [reflexivity|].
  apply String.eqb_neq in Hne. rewrite Hne, andb_false_r. reflexivity.
Qed.

(** C3 (amended): for a wrapper whose node carries only registrations
    made through this wrapper, a callback [f] and an event type without a
    space, other than [constructor] (and, on a host without
    [addEventListener], without a colon): [on(type, f)] followed by
    [off(type, f)] leaves no registration on the node under that type
    whose handler calls [f], and a subsequent [fire(type)] does not invoke
    [f]; the record that [on] pushed stays in [_events]. *)
Theorem on_off_unregisters (st : State) (ty : string) (f : nat) :
  contains_char " " ty = false ->
  ty <> "constructor" ->
  isW3Compliant caps = true \/ isCustom ty = false ->
  tracked caps st ->
  exists st1 st2 trace,
    on caps (VStr ty) (VFun f) VUndefined st = (Normal tt, st1)
    /\ off caps (VStr ty) (VFun f) st1 = (Normal tt, st2)
    /\ active caps ty f st2 = []
    /\ fire caps (VStr ty) st2 = Normal trace
    /\ ~ In f trace
    /\ _events st2 = _events st1
    /\ bindings caps ty f st2 <> [].
Proof.
  intros Hsp Hne Hhost Ht.
  pose proof (hooked_name_entry_name ty Hne) as Hn.
  set (st1 := on_one caps VNull (VFun f) ty st).
  assert (Ht1 : tracked caps st1) by (apply tracked_on_one; assumption).
  exists st1, (snd (off caps (VStr ty) (VFun f) st1)),
    (dispatch (listener_type caps (hooked_name caps ty)) None
       (listeners (snd (off caps (VStr ty) (VFun f) st1)))).
  unfold active, bindings. rewrite <- Hn.
  split; [unfold on; rewrite on_string_single by exact Hsp; reflexivity|].
  split; [reflexivity|].
  split.
  { apply filter_none. intros l Hl Hp. apply andb_true_iff in Hp as [Hty Hcb].
    apply String.eqb_eq in Hty.
    destruct (h_callback (l_handler l)) eqn:Hc; try discriminate.
    cbn in Hcb. apply Nat.eqb_eq in Hcb as ->.
    exact (off_leaves_none ty f0 st1 l Ht1 Hl Hty Hc). }
  split.
  { unfold fire, listener_type. destruct (isW3Compliant caps); [reflexivity|].
    destruct Hhost as [Hw|Hc]; [discriminate|]. rewrite Hc. reflexivity. }
  split.
  { intros Hin. apply list_elem_of_In, list_elem_of_omap in Hin as (l & Hl & Hrun).
    apply list_elem_of_In in Hl.
    destruct (String.eqb (l_type l) (listener_type caps (hooked_name caps ty))) eqn:Hty;
      [|discriminate].
    apply String.eqb_eq in Hty. apply run_handler_calls in Hrun.
    exact (off_leaves_none ty f st1 l Ht1 Hl Hty Hrun). }
  split; [reflexivity|].
  intros Hnil.
  assert (Hin : exists h, In (mkEntry (entry_name caps ty) (VFun f)
                      (default false ((eventHooks caps !! ty) ≫= hk_capturing)) h)
                   (bindings caps ty f (snd (off caps (VStr ty) (VFun f) st1)))).
  { exists (mkHandler (next_id st) (VFun f) VNull None).
    unfold bindings. apply filter_In. split.
    - subst st1. unfold off. cbn [snd _events]. unfold on_one.
      destruct (isW3Compliant caps).
      + cbn [_events]. apply in_or_app. right. left. reflexivity.
      + destruct Hhost as [Hw|Hc]; [discriminate|]. rewrite Hc.
        cbn [_events]. apply in_or_app. right. left. reflexivity.
    - unfold off_matches. cbn. rewrite String.eqb_refl, Nat.eqb_refl. reflexivity. }
  destruct Hin as [h Hin]. unfold bindings in Hin. rewrite <- Hn in Hin.
  rewrite Hnil in Hin. destruct Hin.
Qed.

End EventFacts.

Lemma on_off_unregisters_witness :
  exists st1 st2 trace,
    Events.on Events.w3c (VStr "focus") (VFun 1) VUndefined Events.init = (Normal tt, st1)
    /\ Events.off Events.w3c (VStr "focus") (VFun 1) st1 = (Normal tt, st2)
    /\ Events.active Events.w3c "focus" 1 st2 = []
    /\ Events.fire Events.w3c (VStr "focus") st2 = Normal trace
    /\ ~ In 1%nat trace
    /\ Events._events st2 = Events._events st1
    /\ Events.bindings Events.w3c "focus" 1 st2 <> [].
Proof.
  apply (on_off_unregisters Events.w3c Events.init "focus" 1%nat).
  - reflexivity.
  - discriminate.
  - left. reflexivity.
  - exact (tracked_init Events.w3c).
Defined.

(** C3 as stated fails: after [on("click", f)] and [off("click", f)] the
    binding record of the pair is still in [_events]; [off] unregisters the
    handler and deletes no record. *)
Lemma on_off_record_survives :
  let st1 := snd (Events.on Events.w3c (VStr "click") (VFun 1) VUndefined Events.init) in
  let st2 := snd (Events.off Events.w3c (VStr "click") (VFun 1) st1) in
  Events.bindings Events.w3c "click" 1 st2
  = [mkEntry "click" (VFun 1) false (mkHandler 0 (VFun 1) VNull None)].
Proof. vm_compute. reflexivity. Qed.

(** [on] splits its event argument at spaces, [off] does not: the two
    registrations of [on("click keydown", f)] survive
    [off("click keydown", f)] and [fire("click")] still invokes [f]. *)
Example on_off_space_separated :
  let st1 := snd (Events.on Events.w3c (VStr "click keydown") (VFun 1) VUndefined Events.init) in
  let st2 := snd (Events.off Events.w3c (VStr "click keydown") (VFun 1) st1) in
  Events.fire Events.w3c (VStr "click") st2 = Normal [1%nat]
  /\ length (Events.listeners st2) = 2%nat.
Proof. vm_compute. split; reflexivity. Qed.

(** [eventHooks] is a plain object: [off("constructor", f)] finds the
    inherited function [Object] for a hook and looks for records named
    [Object], while [on] filed the record under [constructor]; the
    handler stays registered. *)
Example on_off_constructor :
  let st1 := snd (Events.on Events.w3c (VStr "constructor") (VFun 1) VUndefined Events.init) in
  let st2 := snd (Events.off Events.w3c (VStr "constructor") (VFun 1) st1) in
  Events.active Events.w3c "constructor" 1 st2
  = [Events.mkListener "constructor" (mkHandler 0 (VFun 1) VNull None) false].
Proof. vm_compute. reflexivity. Qed.

(** On the IE8 path a custom event is recorded under [dataavailable], a
    name that [off] never compares with, so the handler stays attached. *)
Example on_off_ie8_custom :
  let st1 := snd (Events.on Events.ie8 (VStr "my:event") (VFun 1) VUndefined Events.init) in
  let st2 := snd (Events.off Events.ie8 (VStr "my:event") (VFun 1) st1) in
  Events.fire Events.ie8 (VStr "my:event") st2 = Normal [1%nat].
Proof. vm_compute. reflexivity. Qed.

(** C6 (amended): [off] and [fire] called with an event type that is not a
    string, [off] called with a callback that is neither [undefined] nor a
    function, and [on] called with an event that is neither a string nor an
    object, throw the [makeError] message of their own operation and leave
    the registrations and [_events] as they were. *)
Theorem rejected_call_throws (caps : Events.Caps) (c : Events.Call) (st : Events.State) :
  Events.rejected c = true ->
  Events.run caps c st = (Throw (Thrown (makeError (Events.op_name c))), st).
Proof.
  destruct c as [ev sel cb|ty cb|ty d]; cbn [Events.rejected Events.run Events.op_name].
  - destruct ev; cbn; try discriminate; reflexivity.
  - destruct ty; cbn; try reflexivity.
    destruct cb; cbn; try discriminate; reflexivity.
  - destruct ty; cbn; try discriminate; reflexivity.
Qed.

Lemma rejected_call_throws_witness :
  Events.run Events.w3c (Events.CallOff (VStr "click") (VNum 42)) Events.init
  = (Throw (Thrown (makeError "off")), Events.init).
Proof.
  apply (rejected_call_throws Events.w3c (Events.CallOff (VStr "click") (VNum 42)) Events.init).
  reflexivity.
Defined.

(** C6 as stated fails: an event argument that is not a string but an
    object of type / callback pairs is accepted by [on], which binds every
    pair and throws nothing. *)
Lemma on_accepts_object_event :
  Events.run Events.w3c (Events.CallOn (VObj [("click", VFun 1)]) VUndefined VUndefined)
    Events.init
  = (Normal tt,
     Events.mkState
       [Events.mkListener "click" (mkHandler 0 (VFun 1) VNull None) false]
       [mkEntry "click" (VFun 1) false (mkHandler 0 (VFun 1) VNull None)] 1).
Proof. vm_compute. reflexivity. Qed.

(** [on] does not test its callback: [on("click", 42)] takes [42] for the
    selector, leaves the callback [undefined] and pushes a record. *)
Example on_accepts_non_function_callback :
  Events.run Events.w3c (Events.CallOn (VStr "click") (VNum 42) VUndefined) Events.init
  = (Normal tt,
     Events.mkState
       [Events.mkListener "click" (mkHandler 0 VUndefined (VNum 42) None) false]
       [mkEntry "click" VUndefined false (mkHandler 0 VUndefined (VNum 42) None)] 1).
Proof. vm_compute. reflexivity. Qed.

Section DataFacts.
Import Data.
Variable host : Host.

(** A value held in [_data] or inherited by it is returned as it is,
    whatever the node's attributes are, and [_data] stays as it is. *)
Lemma getData_cached k v node (d : Store) :
  data_get host d k = Normal v -> is_undefined v = false ->
  getData host (VStr k) node d = (Normal v, d).
Proof.
  intros Hv Hu. unfold getData. rewrite Hv, Hu. reflexivity.
Qed.



(** An assignment under a key that the store does not inherit writes the
    own property and leaves the prototype alone. *)
Lemma data_put_plain k v (d : Store) :
  inherited host (proto d) k = None ->
  data_put host d k v = (Normal tt, mkStore (<[k := v]> (own d)) (proto d)).
Proof.
  intros Hi. unfold data_put. rewrite Hi. destruct (own d !! k); reflexivity.
Qed.


End DataFacts.



(** Under a key that names a member of [Object.prototype] the attribute
    is never read: [getData("constructor")] returns the inherited
    function and caches nothing. *)
Example getData_inherited_member :
  Data.getData Data.host_browser (VStr "constructor")
    (mkElement "DIV" {[ "data-constructor" := "x" ]}) Data.empty_store
  = (Normal (VFun 900), Data.empty_store).
Proof. vm_compute. reflexivity. Qed.

(** A stored [undefined] is no cached value: the attribute is read again. *)
Example setData_undefined_rereads :
  fst (Data.getData Data.host_browser (VStr "role") (mkElement "DIV" {[ "data-role" := "menu" ]})
         (snd (Data.setData Data.host_browser (VStr "role") VUndefined Data.empty_store)))
  = Normal (VStr "menu").
Proof. vm_compute. reflexivity. Qed.


Section PropsFacts.
Import Props.

Example protected_names_listed :
  protected_names =
  [ "children"; "children"; "childNodes"; "childNodes"; "elements"; "elements";
    "parentNode"; "parentNode"; "firstElementChild"; "firstChild";
    "lastElementChild"; "lastChild"; "nextElementSibling"; "nextSibling";
    "previousElementSibling"; "previousSibling" ].
Proof. reflexivity. Qed.

Lemma protected_hook caps name :
  In name protected_names ->
  propHooks caps !! name
  = Some (mkPropHook (Some throwIllegalAccess_get) (Some throwIllegalAccess_set))
  /\ split " " name = [name].
Proof.
  intros Hin. rewrite protected_names_listed in Hin. cbn in Hin.
  destruct caps as [[] []];
    repeat (destruct Hin as [<-|Hin]; [split; vm_compute; reflexivity|]);
    destruct Hin.
Qed.

(** C8: for every name protected at line 607 -- among them [children],
    [childNodes], [parentNode], [firstChild], [lastChild], [nextSibling],
    [previousSibling] -- [get(name)] throws, and [set(name, value)] throws
    for every value and leaves the node as it was. *)
Theorem protected_property_access_throws
    (caps : Caps) (ToString : Value -> string) (call : nat -> Value -> Completion Value)
    (name : string) (value : Value) (n : Node) :
  In name protected_names ->
  get caps n (VStr name) = Throw (Thrown (makeError "get"))
  /\ set caps ToString call (VStr name) value n = (Throw (Thrown (makeError "get")), n).
Proof.
  intros Hin. destruct (protected_hook caps name Hin) as [Hhook Hsplit].
  assert (Hget : get caps n (VStr name) = Throw (Thrown (makeError "get"))).
  { unfold get. rewrite Hhook. reflexivity. }
  split; [exact Hget|].
  unfold set, set_string. rewrite Hget, Hsplit.
  destruct value; cbn [forEach]; unfold set_one; rewrite ?Hhook; reflexivity.
Qed.

Lemma protected_property_access_throws_witness :
  get (mkCaps false true) (mkNode (mkElement "UL" ∅) {[ "childNodes" := VObj [] ]} ∅)
      (VStr "childNodes")
  = Throw (Thrown (makeError "get"))
  /\ set (mkCaps false true) (fun _ => "x") (fun _ v => Normal v)
       (VStr "childNodes") (VNum 1)
       (mkNode (mkElement "UL" ∅) {[ "childNodes" := VObj [] ]} ∅)
     = (Throw (Thrown (makeError "get")),
        mkNode (mkElement "UL" ∅) {[ "childNodes" := VObj [] ]} ∅).
Proof.
  apply (protected_property_access_throws (mkCaps false true) (fun _ => "x")
           (fun _ v => Normal v) "childNodes" (VNum 1)
           (mkNode (mkElement "UL" ∅) {[ "childNodes" := VObj [] ]} ∅)).
  vm_compute. tauto.
Defined.

(** A name outside the table is read from the node. *)
Example unprotected_get :
  get (mkCaps false true) (mkNode (mkElement "A" {[ "href" := "x.html" ]}) ∅ ∅) (VStr "href")
  = Normal (VStr "x.html").
Proof. reflexivity. Qed.

End PropsFacts.

Section FindFacts.
Import Find.

Example scope_two_branches :
  scope_selector "[id='x'] " "a > b,c d" = "[id='x'] a > b,[id='x'] c d".
Proof. reflexivity. Qed.

Example rquickExpr_samples :
  rquickExpr_exec true "li" = Some QTag
  /\ rquickExpr_exec true "#main" = Some (QId "main")
  /\ rquickExpr_exec true ".item" = Some (QClass "item")
  /\ rquickExpr_exec false ".item" = None
  /\ rquickExpr_exec true "ul > li" = None.
Proof. repeat split. Qed.

(** The prefix lands on every piece of [selector.split(",")]. *)
Lemma join_prefixed nid (l : list string) :
  l <> [] ->
  nid +:+ join ("," +:+ nid) l = join "," (map (String.append nid) l).
Proof.
  induction l as [|x l IH]; [congruence|]. intros _.
  destruct l as [|y l]; [reflexivity|].
  change (join ("," +:+ nid) (x :: y :: l))
    with (x +:+ ("," +:+ nid) +:+ join ("," +:+ nid) (y :: l)).
  change (join "," (map (String.append nid) (x :: y :: l)))
    with ((nid +:+ x) +:+ "," +:+ join "," (map (String.append nid) (y :: l))).
  rewrite <- IH by discriminate.
  rewrite !app_assoc_str. reflexivity.
Qed.

Lemma scope_selector_branches nid selector :
  scope_selector nid selector = join "," (map (String.append nid) (split "," selector)).
Proof. apply join_prefixed, split_not_nil. Qed.

Lemma remove_set_absent e name v :
  getAttribute e name = None -> removeAttribute (setAttribute e name v) name = e.
Proof.
  destruct e as [nm attrs]. unfold getAttribute, removeAttribute, setAttribute. cbn.
  intros H. rewrite delete_insert_id by exact H. reflexivity.
Qed.

Section Host.
Variable N : Type.
Variable tmpId : string.
Variable query : Root -> bool -> bool -> string -> Completion (list N).

(** [find] / [findAll] on an element root whose [id] attribute is absent
    or non-empty, with a selector outside the quick grammar: the query
    primitive is called once, with the prefix on every branch of the
    selector and on a root that carries an [id] (its own, or [tmpId]
    if it had none), and afterwards the root is as it was before the
    call, whether the query returned or threw. *)
Theorem find_generic_restores_root (e : Element) (has_parent multiple : bool) (selector : string) :
  getAttribute e "id" <> Some EmptyString ->
  exists tagged nid,
    find_generic N tmpId query (Elem e has_parent) selector multiple
    = (match query (Elem tagged has_parent) (rsibling_test selector && has_parent) multiple
               (join "," (map (String.append ("[id='" +:+ nid +:+ "'] ")) (split "," selector)))
       with
       | Normal l => Normal (if multiple then Many l else One (head l))
       | Throw x => Throw x
       end, Elem e has_parent)
    /\ getAttribute tagged "id" <> None
    /\ (getAttribute e "id" = None -> tagged = setAttribute e "id" tmpId /\ nid = tmpId)
    /\ (getAttribute e "id" <> None -> tagged = e).
Proof.
  intros Hne. unfold find_generic. rewrite scope_selector_branches.
  destruct (getAttribute e "id") as [o|] eqn:Hid.
  - destruct o as [|c o]; [congruence|]. cbn [negb String.eqb default].
    exists e, (escape (String c o)). rewrite Hid. repeat split; congruence.
  - cbn [default]. exists (setAttribute e "id" tmpId), tmpId.
    rewrite (remove_set_absent e "id" tmpId Hid).
    repeat split; try congruence.
    unfold getAttribute, setAttribute. cbn. rewrite lookup_insert_eq. discriminate.
Qed.

(** C7 (evaluation of the code): a root whose [id] attribute is present
    and empty loses the attribute; [find] and [findAll] take the empty
    string for a missing id, overwrite it with [tmpId] and remove the
    attribute in the [finally] block, whether the query returns or throws. *)
Theorem find_drops_empty_id (multiple : bool) :
  snd (find N tmpId true (fun _ => None) (fun _ _ => false) (fun _ => false)
         (fun _ _ => []) (fun _ _ => []) query
         (Elem div_empty_id true) (VStr "ul > li") multiple)
  = Elem (mkElement "DIV" ∅) true
  /\ getAttribute div_empty_id "id" = Some EmptyString
  /\ getAttribute (mkElement "DIV" ∅) "id" = None.
Proof. repeat split. Qed.

End Host.

Lemma find_generic_restores_root_witness :
  exists tagged nid,
    find_generic nat "DOM1368000000000" query_throws
      (Elem (mkElement "UL" ∅) true) "li > a, li > b" true
    = (match query_throws (Elem tagged true) (rsibling_test "li > a, li > b" && true) true
               (join "," (map (String.append ("[id='" +:+ nid +:+ "'] "))
                              (split "," "li > a, li > b")))
       with
       | Normal l => Normal (Many l)
       | Throw x => Throw x
       end, Elem (mkElement "UL" ∅) true)
    /\ getAttribute tagged "id" <> None
    /\ (getAttribute (mkElement "UL" ∅) "id" = None ->
        tagged = setAttribute (mkElement "UL" ∅) "id" "DOM1368000000000"
        /\ nid = "DOM1368000000000")
    /\ (getAttribute (mkElement "UL" ∅) "id" <> None -> tagged = mkElement "UL" ∅).
Proof.
  apply (find_generic_restores_root nat "DOM1368000000000" query_throws
           (mkElement "UL" ∅) true true "li > a, li > b").
  discriminate.
Defined.

End FindFacts.

Section WatchFacts.
Import Watch.

Example show_N_sample : show_N 1368000000000 = "1368000000000".
Proof. reflexivity. Qed.




(** Two [watch] calls for a selector within one millisecond get the same
    animation name: the second records nothing new under the selector,
    and still imports its two rules. *)
Example watch_same_millisecond :
  let st1 := watch w3c "x.htc" "-webkit-" (fun _ => []) 5 ".menu" 7 init in
  let st2 := watch w3c "x.htc" "-webkit-" (fun _ => []) 5 ".menu" 8 st1 in
  _watchers st2 !! ".menu" = Some (Names "DOM5")
  /\ length (styleSheet st2) = 4%nat.
Proof. vm_compute. split; reflexivity. Qed.

End WatchFacts.

Section NullObjectFacts.
Import NullObject.

Lemma assoc_set_same key m l : assoc key (set_assoc key m l) = Some m.
Proof.
  induction l as [|[k v] l IH]; cbn.
  - rewrite String.eqb_refl. reflexivity.
  - destruct (String.eqb k key) eqn:E; cbn; rewrite E; [reflexivity|exact IH].
Qed.

Lemma assoc_set_other key key' m l :
  key <> key' -> assoc key' (set_assoc key m l) = assoc key' l.
Proof.
  intros Hne. induction l as [|[k v] l IH]; cbn.
  - apply String.eqb_neq in Hne. rewrite Hne. reflexivity.
  - destruct (String.eqb k key) eqn:E; cbn.
    + apply String.eqb_eq in E. subst k.
      apply String.eqb_neq in Hne. rewrite Hne. reflexivity.
    + destruct (String.eqb k key'); [reflexivity|exact IH].
Qed.

(** After the loop every key of the loop holds [function() {}] on the
    target, whatever the target held or inherited before. *)
Lemma mixin_noops_own ks : forall own proto key,
  (In key ks \/ assoc key own = Some Noop) ->
  get (fold_left (fun t k => mixin t k Noop) ks (mkObject own proto)) key = Some Noop.
Proof.
  induction ks as [|k ks IH]; intros own proto key H; cbn [fold_left].
  - destruct H as [[]|H]. cbn. rewrite H. reflexivity.
  - cbn [mixin]. apply IH.
    destruct (String.eqb_spec k key) as [->|Hne].
    + right. apply assoc_set_same.
    + destruct H as [[Hk|Hin]|Hown]; [congruence|left; exact Hin|].
      right. rewrite assoc_set_other by exact Hne. exact Hown.
Qed.

Example operations_listed :
  operations =
  ["find"; "findAll"; "getData"; "setData"; "contains"; "on"; "off"; "fire";
   "matches"; "clone"; "offset"; "show"; "hide"; "toString"; "get"; "set";
   "next"; "prev"; "parent"; "firstChild"; "lastChild"; "nextAll"; "prevAll";
   "children"; "after"; "before"; "prepend"; "append"; "replace"; "remove";
   "hasClass"; "addClass"; "removeClass"; "toggleClass"; "getStyle"; "setStyle"].
Proof. reflexivity. Qed.

(** C4 as stated fails: [on] called on the null element returns
    [undefined], not the null element. *)
Lemma null_on_returns_undefined :
  invoke null_element "on" = Normal (Returns VUndefined)
  /\ invoke null_element "on" <> Normal ReturnsThis.
Proof. split; [reflexivity|discriminate]. Qed.

(** C4 (amended): every operation of a normal wrapper exists on the null
    element, and every operation of [DOMNode.prototype] on the null node;
    there it is the function that does nothing, and a call of it returns
    [undefined]. *)
Theorem null_object_operations (key : string) :
  In key operations ->
  get null_element key = Some Noop
  /\ invoke null_element key = Normal (Returns VUndefined)
  /\ (In key (keys DOMNode_prototype) ->
      get null_node key = Some Noop
      /\ invoke null_node key = Normal (Returns VUndefined)).
Proof.
  intros Hin.
  assert (Hkeys : In key (keys DOMNode_prototype ++ keys DOMElement_prototype)).
  { unfold operations in Hin. apply filter_In in Hin as [Hin _]. exact Hin. }
  assert (Hel : get null_element key = Some Noop).
  { assert (Hp : get DOMNullElement_prototype key = Some Noop).
    { unfold DOMNullElement_prototype, mixin_noops.
      apply in_app_or in Hkeys as [Hn|He].
      - destruct (fold_left _ (keys DOMNode_prototype) _) as [own proto] eqn:E.
        apply mixin_noops_own.
        destruct (in_dec String.eq_dec key (keys DOMElement_prototype)) as [He|Hne];
          [left; exact He|right].
        pose proof (mixin_noops_own (keys DOMNode_prototype) instance_fields
                      (Some DOMElement_prototype) key (or_introl Hn)) as H.
        rewrite E in H. cbn [get] in H.
        destruct (assoc key own) as [m|] eqn:Ha; [exact H|].
        exfalso. apply Hne.
        assert (Hproto : proto = Some DOMElement_prototype).
        { clear -E. revert E. generalize instance_fields.
          induction (keys DOMNode_prototype) as [|k ks IH]; cbn; intros l E.
          - congruence.
          - exact (IH _ E). }
        subst proto. clear -Hn H. revert key Hn H. vm_compute.
        intros key Hn. repeat (destruct Hn as [<-|Hn]; [vm_compute; discriminate|]).
        destruct Hn.
      - destruct (fold_left _ (keys DOMNode_prototype) _) as [own proto].
        apply mixin_noops_own. left. exact He. }
    unfold null_element. cbn [get assoc].
    destruct (String.eqb_spec "_node" key) as [<-|_]; [|exact Hp].
    exfalso. revert Hin. vm_compute. intuition discriminate. }
  split; [exact Hel|]. split; [unfold invoke; rewrite Hel; reflexivity|].
  intros Hn.
  assert (Hnn : get null_node key = Some Noop).
  { unfold null_node. cbn [get assoc].
    destruct (String.eqb_spec "_node" key) as [<-|_].
    - exfalso. revert Hn. vm_compute. intuition discriminate.
    - unfold DOMNullNode_prototype, mixin_noops. apply mixin_noops_own. left. exact Hn. }
  split; [exact Hnn|unfold invoke; rewrite Hnn; reflexivity].
Qed.

Lemma null_object_operations_witness :
  get null_element "setStyle" = Some Noop
  /\ invoke null_element "setStyle" = Normal (Returns VUndefined)
  /\ (In "setStyle" (keys DOMNode_prototype) ->
      get null_node "setStyle" = Some Noop
      /\ invoke null_node "setStyle" = Normal (Returns VUndefined)).
Proof.
  apply (null_object_operations "setStyle"). vm_compute. tauto.
Defined.

End NullObjectFacts.

Section CreateFacts.
Import Create.

Example parse_markup : sandbox_parse markup = [ul].
Proof. reflexivity. Qed.

Example parse_leading_text : sandbox_parse "x<b>y</b>z<i></i>" = [HElem "b" [] [HText "y"]; HElem "i" [] []].
Proof. reflexivity. Qed.

(** C9 as stated fails: [create] of the markup returns a
    [DOMElementCollection], which has no [findAll]; the call throws a
    [TypeError] instead of yielding a collection of length 2. *)
Lemma create_markup_findAll_throws :
  create_then_findAll "DOM1368000000000" (fun _ _ _ _ _ => Normal []) (CString markup) "li"
  = Throw TypeError.
Proof. reflexivity. Qed.

(** C9 (amended): [create] of the markup yields a collection of length 1
    that holds the wrapper of the [ul]; [findAll] is not a property of a
    collection; [findAll("li")] on the wrapper of the [ul] yields a
    collection of length 2 whose elements are the two [li] in document
    order, with the texts [a] and [b]. *)
Theorem create_markup_then_findAll_on_member :
  forall tmpId query,
    create (CString markup) = Normal (Collection [ul])
    /\ NullObject.get collection_object "findAll" = None
    /\ wrapper_findAll tmpId query ul "li" = Normal [li "a"; li "b"]
    /\ map textContent [li "a"; li "b"] = ["a"; "b"].
Proof. intros. repeat split. Qed.

End CreateFacts.

(* ===================================================================== *)
(** ** Further properties of the event methods                            *)
(* ===================================================================== *)

Section MoreEventFacts.
Import Events Delegation.
Variable caps : Caps.

Lemma fresh_init : fresh init.
Proof. intros l []. Qed.

Lemma same_listener_id ty h cap l :
  same_listener ty h cap l = true -> h_id (l_handler l) = h_id h.
Proof.
  unfold same_listener. intros H.
  apply andb_true_iff in H as [H _]. apply andb_true_iff in H as [_ H].
  apply Nat.eqb_eq in H. exact H.
Qed.

Lemma existsb_fresh ty h cap st :
  fresh st -> h_id h = next_id st -> existsb (same_listener ty h cap) (listeners st) = false.
Proof.
  intros Hf Hid. destruct (existsb _ _) eqn:E; [|reflexivity].
  apply existsb_exists in E as (l & Hl & Hs).
  apply same_listener_id in Hs. specialize (Hf l Hl). lia.
Qed.

(** With a fresh closure identity, [on] for one event type (no colon on a
    host without [addEventListener]) appends one registration and one
    record. *)
Lemma on_one_appends selector callback event st :
  fresh st -> isW3Compliant caps = true \/ isCustom event = false ->
  let h := mkHandler (next_id st) callback selector None in
  let name := entry_name caps event in
  let cap := default false ((eventHooks caps !! event) ≫= hk_capturing) in
  on_one caps selector callback event st
  = mkState (listeners st
             ++ [mkListener (listener_type caps name) h (if isW3Compliant caps then cap else false)])
            (_events st ++ [mkEntry name callback cap h]) (S (next_id st)).
Proof.
  intros Hf Hhost. cbn zeta. unfold on_one, listener_type, entry_name.
  destruct (isW3Compliant caps) eqn:Hw.
  - unfold addEventListener. rewrite existsb_fresh by (try exact Hf; reflexivity). reflexivity.
  - destruct Hhost as [?|Hc]; [discriminate|]. rewrite Hc. reflexivity.
Qed.

Lemma fresh_on_one selector callback event st :
  fresh st -> fresh (on_one caps selector callback event st).
Proof.
  intros Hf l. unfold on_one.
  destruct (isW3Compliant caps); [|destruct (isCustom event)]; cbn [listeners next_id];
    unfold addEventListener, attachEvent.
  - destruct (existsb _ _).
    + intros Hl. specialize (Hf l Hl). lia.
    + intros Hl. apply in_app_or in Hl as [Hl|[<-|[]]]; [specialize (Hf l Hl); lia|cbn; lia].
  - intros Hl. apply in_app_or in Hl as [Hl|[<-|[]]]; [specialize (Hf l Hl); lia|cbn; lia].
  - intros Hl. apply in_app_or in Hl as [Hl|[<-|[]]]; [specialize (Hf l Hl); lia|cbn; lia].
Qed.

Lemma dispatch_app ty u ls1 ls2 :
  dispatch ty u (ls1 ++ ls2) = (dispatch ty u ls1 ++ dispatch ty u ls2)%list.
Proof. unfold dispatch. apply omap_app. Qed.

(** [on(type, f)] then [fire(type)], for a type other than
    [constructor] (which [fire] renames after the inherited member of
    [eventHooks]): the callbacks that [fire] invoked before are invoked
    as before, in the same order, and [f] is invoked once more, last. *)
Theorem on_then_fire_invokes_last (st : State) (ty : string) (f : nat) :
  contains_char " " ty = false ->
  ty <> "constructor" ->
  isW3Compliant caps = true \/ isCustom ty = false ->
  fresh st ->
  exists before,
    fire caps (VStr ty) st = Normal before
    /\ fire caps (VStr ty) (snd (on caps (VStr ty) (VFun f) VUndefined st))
       = Normal (before ++ [f])%list.
Proof.
  intros Hsp Hne Hhost Hf.
  exists (dispatch (listener_type caps (hooked_name caps ty)) None (listeners st)).
  assert (Hfire : forall s, fire caps (VStr ty) s
            = Normal (dispatch (listener_type caps (hooked_name caps ty)) None (listeners s))).
  { intros s. unfold fire, listener_type. destruct (isW3Compliant caps); [reflexivity|].
    destruct Hhost as [?|Hc]; [discriminate|]. rewrite Hc. reflexivity. }
  split; [apply Hfire|]. rewrite Hfire. f_equal.
  unfold on. cbn [snd]. rewrite on_string_single by exact Hsp.
  rewrite (on_one_appends VNull (VFun f) ty st Hf Hhost). cbn [listeners].
  rewrite <- (hooked_name_entry_name caps ty Hne).
  rewrite dispatch_app. f_equal. unfold dispatch. cbn [omap list_omap l_type l_handler].
  rewrite String.eqb_refl. reflexivity.
Qed.

Lemma omap_nil_all {A B} (g : A -> option B) (l : list A) :
  (forall x, In x l -> g x = None) -> omap g l = [].
Proof.
  induction l as [|x l IH]; intros H; [reflexivity|]. cbn.
  rewrite (H x (or_introl eq_refl)). apply IH. intros y Hy. apply H. right. exact Hy.
Qed.

(** [off(type)] without a callback: afterwards [fire(type)] invokes
    nothing, whatever had been bound through this wrapper. *)
Theorem off_without_callback_silences (st : State) (ty : string) :
  isW3Compliant caps = true \/ isCustom ty = false ->
  tracked caps st ->
  fire caps (VStr ty) (snd (off caps (VStr ty) VUndefined st)) = Normal [].
Proof.
  intros Hhost Ht.
  assert (Hfire : forall s, fire caps (VStr ty) s
            = Normal (dispatch (listener_type caps (hooked_name caps ty)) None (listeners s))).
  { intros s. unfold fire, listener_type. destruct (isW3Compliant caps); [reflexivity|].
    destruct Hhost as [?|Hc]; [discriminate|]. rewrite Hc. reflexivity. }
  rewrite Hfire. f_equal. apply omap_nil_all. intros l Hl.
  destruct (String.eqb_spec (l_type l) (listener_type caps (hooked_name caps ty))) as [Hty|_];
    [exfalso|reflexivity].
  cbn in Hl. apply fold_off_spec in Hl as [Hl Hall].
  destruct (Ht l Hl) as (e & He & Hn & Hh & Hc & _).
  assert (Hname : e_name e = hooked_name caps ty).
  { rewrite Hty in Hn. unfold listener_type in Hn.
    destruct (isW3Compliant caps); [congruence|].
    symmetry. exact (String.app_inj "on" _ _ Hn). }
  assert (Hm : off_matches (hooked_name caps ty) None e = true).
  { unfold off_matches. rewrite Hname, String.eqb_refl. reflexivity. }
  specialize (Hall e He Hm). unfold listener_type in Hty.
  rewrite Hh, <- Hc, <- Hty, same_listener_refl in Hall. discriminate.
Qed.

(** [off] never unregisters a handler filed under another type, and it
    never changes [_events], whatever its arguments are. *)
Theorem off_keeps_other_types (st : State) (ev cb : Value) (l : Listener) :
  (forall ty, ev = VStr ty -> l_type l <> listener_type caps (hooked_name caps ty)) ->
  In l (listeners st) ->
  In l (listeners (snd (off caps ev cb st)))
  /\ _events (snd (off caps ev cb st)) = _events st.
Proof.
  intros Hother Hl.
  assert (Hkeep : forall ty c, ev = VStr ty ->
            In l (fold_left (off_one caps (hooked_name caps ty) c) (_events st) (listeners st))).
  { intros ty c ->. apply fold_off_spec. split; [exact Hl|]. intros e _ _.
    unfold same_listener. specialize (Hother ty eq_refl). unfold listener_type in Hother.
    destruct (String.eqb_spec (l_type l)
                (if isW3Compliant caps then hooked_name caps ty else "on" +:+ hooked_name caps ty))
      as [E|_]; [contradiction|reflexivity]. }
  unfold off. destruct ev; try (split; [exact Hl|reflexivity]).
  destruct cb; cbn [snd listeners _events]; split;
    try exact Hl; try reflexivity; apply Hkeep; reflexivity.
Qed.

Lemma on_string_plain ty selector callback st :
  contains_char " " ty = false ->
  String.eqb (typeof selector) "function" = false ->
  on_string caps ty selector callback st = on_one caps selector callback ty st.
Proof.
  intros Hsp Hty. unfold on_string. rewrite Hty.
  rewrite (split_without_separator _ _ Hsp). reflexivity.
Qed.

Section Bubbling.
Variable native : Element -> string -> bool.
Variable ToString : Value -> string.

Lemma delegate_loop_some_match sel m path :
  Selector.ctr sel false = Normal m ->
  delegate_loop native m path = some_match native sel path.
Proof.
  intros Hm. unfold some_match, Selector.DOMElement_matches. rewrite Hm.
  induction path as [|elem up IH]; [reflexivity|]. cbn. rewrite IH.
  destruct (Selector.test native m elem); reflexivity.
Qed.

Lemma ctr_total sel : exists m, Selector.ctr sel false = Normal m.
Proof.
  unfold Selector.ctr. destruct (Selector.rquickIs_exec sel); eexists; reflexivity.
Qed.

Lemma dispatch_from_app path ty u ls1 ls2 :
  dispatch_from native ToString path ty u (ls1 ++ ls2)
  = (dispatch_from native ToString path ty u ls1
     ++ dispatch_from native ToString path ty u ls2)%list.
Proof. unfold dispatch_from. apply omap_app. Qed.

(** Delegated binding: after [on(type, selector, f)] with a non-empty
    selector, an event of that type whose target lies below the bound
    node invokes, besides what was invoked before, [f] exactly once when
    the target or one of its ancestors below the bound node satisfies the
    selector, and does not invoke [f] otherwise. *)
Theorem delegated_on_invokes_once (st : State) (ty sel : string) (f : nat) (path : list Element) :
  contains_char " " ty = false ->
  sel <> EmptyString ->
  isW3Compliant caps = true \/ isCustom ty = false ->
  fresh st ->
  dispatch_from native ToString path (listener_type caps (entry_name caps ty)) None
    (listeners (snd (on caps (VStr ty) (VStr sel) (VFun f) st)))
  = (dispatch_from native ToString path (listener_type caps (entry_name caps ty)) None
       (listeners st)
     ++ (if some_match native sel path then [f] else []))%list.
Proof.
  intros Hsp Hsel Hhost Hf. unfold on. cbn [snd].
  rewrite on_string_plain by (try exact Hsp; reflexivity).
  rewrite (on_one_appends (VStr sel) (VFun f) ty st Hf Hhost). cbn [listeners].
  rewrite dispatch_from_app. f_equal.
  unfold dispatch_from. cbn [omap list_omap l_type l_handler].
  rewrite String.eqb_refl. unfold run_handler_from.
  cbn [h_custom h_selector h_callback truthy selector_text].
  apply String.eqb_neq in Hsel. rewrite Hsel. cbn [negb].
  destruct (ctr_total sel) as [m Hm]. rewrite Hm.
  rewrite (delegate_loop_some_match sel m path Hm).
  destruct (some_match native sel path); reflexivity.
Qed.

(** An event fired at the bound node itself never reaches the callback
    of a delegated binding. *)
Lemma delegated_not_at_node srcUrn h :
  truthy (h_selector h) = true -> run_handler_from native ToString [] srcUrn h = None.
Proof.
  intros Ht. unfold run_handler_from. rewrite Ht.
  destruct (ctr_total (selector_text ToString (h_selector h))) as [m ->]. cbn.
  destruct (h_custom h); [destruct srcUrn; [destruct (String.eqb _ _)|]|]; reflexivity.
Qed.

End Bubbling.

(** [on] with a list of event types separated by spaces pushes one record
    per listed type, in order, each under the name the hook of its type
    gives it and with the callback given. *)
Theorem on_binds_every_listed_type (st : State) (ty : string) (f : nat) :
  isW3Compliant caps = true ->
  exists new,
    _events (snd (on caps (VStr ty) (VFun f) VUndefined st)) = (_events st ++ new)%list
    /\ map e_name new = map (entry_name caps) (split " " ty)
    /\ Forall (fun e => e_callback e = VFun f) new.
Proof.
  intros Hw. unfold on, on_string. cbn [snd typeof]. rewrite String.eqb_refl.
  generalize (split " " ty). intros pieces. revert st.
  induction pieces as [|p pieces IH]; intros st; cbn [fold_left].
  - exists []. rewrite app_nil_r. repeat split. constructor.
  - destruct (IH (on_one caps VNull (VFun f) p st)) as (new & Hev & Hnames & Hcb).
    exists (mkEntry (entry_name caps p) (VFun f)
              (default false ((eventHooks caps !! p) ≫= hk_capturing))
              (mkHandler (next_id st) (VFun f) VNull None) :: new).
    split; [|split].
    + rewrite Hev. unfold on_one. rewrite Hw. cbn [_events].
      rewrite <- app_assoc. reflexivity.
    + cbn. rewrite Hnames. reflexivity.
    + constructor; [reflexivity|exact Hcb].
Qed.

End MoreEventFacts.

Lemma on_then_fire_invokes_last_witness :
  exists before,
    Events.fire Events.w3c (VStr "blur") (snd (Events.on Events.w3c (VStr "blur") (VFun 3) VUndefined Events.init)) = Normal before
    /\ Events.fire Events.w3c (VStr "blur")
         (snd (Events.on Events.w3c (VStr "blur") (VFun 4) VUndefined
                 (snd (Events.on Events.w3c (VStr "blur") (VFun 3) VUndefined Events.init))))
       = Normal (before ++ [4%nat])%list.
Proof.
  apply (on_then_fire_invokes_last Events.w3c
           (snd (Events.on Events.w3c (VStr "blur") (VFun 3) VUndefined Events.init)) "blur" 4%nat).
  - reflexivity.
  - discriminate.
  - left. reflexivity.
  - intros l Hl. vm_compute in Hl. destruct Hl as [<-|[]]. vm_compute. lia.
Defined.


(** After [on("constructor", f)], [fire("constructor")] dispatches an
    event named [Object] and does not reach [f]. *)
Example on_fire_constructor :
  Events.fire Events.w3c (VStr "constructor")
    (snd (Events.on Events.w3c (VStr "constructor") (VFun 4) VUndefined Events.init))
  = Normal [].
Proof. vm_compute. reflexivity. Qed.

Lemma off_without_callback_silences_witness :
  Events.fire Events.w3c (VStr "click")
    (snd (Events.off Events.w3c (VStr "click") VUndefined
       (snd (Events.on Events.w3c (VStr "click keyup") (VFun 3) VUndefined Events.init))))
  = Normal [].
Proof.
  apply (off_without_callback_silences Events.w3c
           (snd (Events.on Events.w3c (VStr "click keyup") (VFun 3) VUndefined Events.init))
           "click").
  - left. reflexivity.
  - unfold Events.on, Events.on_string. cbn [snd typeof]. rewrite String.eqb_refl.
    cbn [split Ascii.eqb Bool.eqb fold_left].
    apply tracked_on_one, tracked_on_one, tracked_init.
Defined.

Lemma off_keeps_other_types_witness :
  let st := snd (Events.on Events.w3c (VStr "click keyup") (VFun 3) VUndefined Events.init) in
  let l := Events.mkListener "keyup" (mkHandler 1 (VFun 3) VNull None) false in
  In l (Events.listeners (snd (Events.off Events.w3c (VStr "click") VUndefined st)))
  /\ Events._events (snd (Events.off Events.w3c (VStr "click") VUndefined st))
     = Events._events st.
Proof.
  apply (off_keeps_other_types Events.w3c
           (snd (Events.on Events.w3c (VStr "click keyup") (VFun 3) VUndefined Events.init))
           (VStr "click") VUndefined
           (Events.mkListener "keyup" (mkHandler 1 (VFun 3) VNull None) false)).
  - intros ty [= <-]. vm_compute. discriminate.
  - vm_compute. right. left. reflexivity.
Defined.

Lemma delegated_on_invokes_once_witness :
  Delegation.dispatch_from (fun _ _ => false) (fun _ => "x")
    [mkElement "SPAN" ∅; mkElement "LI" {[ "class" := "item" ]}] "click" None
    (Events.listeners
       (snd (Events.on Events.w3c (VStr "click") (VStr "li.item") (VFun 5) Events.init)))
  = (Delegation.dispatch_from (fun _ _ => false) (fun _ => "x")
       [mkElement "SPAN" ∅; mkElement "LI" {[ "class" := "item" ]}] "click" None
       (Events.listeners Events.init)
     ++ (if Delegation.some_match (fun _ _ => false) "li.item"
              [mkElement "SPAN" ∅; mkElement "LI" {[ "class" := "item" ]}]
         then [5%nat] else []))%list.
Proof.
  apply (delegated_on_invokes_once Events.w3c (fun _ _ => false) (fun _ => "x")
           Events.init "click" "li.item" 5%nat
           [mkElement "SPAN" ∅; mkElement "LI" {[ "class" := "item" ]}]).
  - reflexivity.
  - discriminate.
  - left. reflexivity.
  - exact fresh_init.
Defined.

Lemma on_binds_every_listed_type_witness :
  exists new,
    Events._events (snd (Events.on Events.w3c (VStr "focus click") (VFun 2) VUndefined Events.init))
    = (Events._events Events.init ++ new)%list
    /\ map e_name new = map (Events.entry_name Events.w3c) (split " " "focus click")
    /\ Forall (fun e => e_callback e = VFun 2) new.
Proof.
  apply (on_binds_every_listed_type Events.w3c Events.init "focus click" 2%nat). reflexivity.
Defined.

Section ReadyFacts.
Import Ready.

Lemma run_snoc steps s st : run (steps ++ [s]) st = step (run steps st) s.
Proof. unfold run. rewrite fold_left_app. reflexivity. Qed.

(** [DOM.ready]: whatever the order of registrations and load
    notifications, the callbacks scheduled so far followed by those still
    queued are the registered callbacks, each once and in registration
    order; nothing is scheduled before the page has loaded, and nothing
    stays queued after. *)
Theorem ready_schedules_each_once (polling already_loaded : bool) (steps : list Step) :
  let st := run steps (init polling already_loaded) in
  (timers st ++ pending st)%list = registered steps
  /\ (if already_loaded || existsb is_loaded steps
      then readyCallbacks st = None
      else timers st = [] /\ readyCallbacks st = Some (registered steps)).
Proof.
  cbn zeta. induction steps as [|s steps IH] using rev_ind.
  - destruct already_loaded; cbn; repeat split.
  - rewrite run_snoc. destruct IH as [Hall Hphase].
    rewrite existsb_app. unfold registered in *. rewrite omap_app.
    set (st := run steps (init polling already_loaded)) in *.
    destruct s as [f|]; cbn [step existsb is_loaded omap list_omap].
    + rewrite orb_false_r.
      destruct (already_loaded || existsb is_loaded steps) eqn:E.
      * unfold ready. rewrite Hphase. cbn. unfold pending in *. rewrite Hphase in Hall.
        cbn in *. rewrite app_nil_r in *. rewrite Hall. split; reflexivity.
      * destruct Hphase as [Ht Hq]. unfold ready. rewrite Hq. cbn. unfold pending. cbn.
        rewrite Ht. repeat split.
    + rewrite app_nil_r. rewrite orb_true_r, orb_true_r.
      unfold pageLoaded, pending in *.
      destruct (readyCallbacks st) as [q|]; cbn in *;
        rewrite ?app_nil_r in *; split; try reflexivity; exact Hall.
Qed.

(** A value that is not a function is refused and nothing is queued or
    scheduled. *)
Lemma ready_rejects callback st :
  typeof callback <> "function" ->
  ready callback st = (Throw (Thrown (makeError_typed "ready" "DOM")), st).
Proof. destruct callback; cbn; intros H; try reflexivity. congruence. Qed.

End ReadyFacts.

Section WatchLogFacts.
Import Watch WatchLog.
Variable caps : Caps.
Variable behaviorUrl cssPrefix : string.
Variable findAll : string -> list nat.





End WatchLogFacts.


Section ClassFacts.
Import Classes.

Lemma replace_rclass_app a b :
  Selector.replace_rclass (a +:+ b) = Selector.replace_rclass a +:+ Selector.replace_rclass b.
Proof.
  induction a as [|c a IH]; [reflexivity|].
  rewrite app_cons. cbn [Selector.replace_rclass]. rewrite IH, app_cons. reflexivity.
Qed.

Lemma replace_rclass_plain c : plain c = true -> Selector.replace_rclass c = c.
Proof.
  induction c as [|x c IH]; [reflexivity|]. unfold plain. cbn [all_chars].
  intros H. apply andb_true_iff in H as [Hx H]. apply andb_true_iff in Hx as [_ Hx].
  cbn [Selector.replace_rclass]. apply negb_true_iff in Hx. rewrite Hx, (IH H). reflexivity.
Qed.

Lemma plain_no_space c : plain c = true -> contains_char " " c = false.
Proof.
  induction c as [|x c IH]; [reflexivity|]. unfold plain. cbn [all_chars contains_char].
  intros H. apply andb_true_iff in H as [Hx H]. apply andb_true_iff in Hx as [Hx _].
  apply negb_true_iff in Hx. rewrite Hx, (IH H). reflexivity.
Qed.

Lemma every_forallb {A} (f : A -> bool) (l : list A) : forall b,
  fold_left (fun result x => result && f x) l b = b && forallb f l.
Proof.
  induction l as [|x l IH]; intros b; cbn; [rewrite andb_true_r; reflexivity|].
  rewrite IH, andb_assoc. reflexivity.
Qed.

Lemma hasClass_forallb cn names :
  hasClass cn names = forallb (hasClass_strategy cn) (split " " names).
Proof. unfold hasClass. rewrite every_forallb. reflexivity. Qed.

Lemma hasClass_single cn c : plain c = true -> hasClass cn c = hasClass_strategy cn c.
Proof.
  intros Hp. rewrite hasClass_forallb, (split_without_separator _ _ (plain_no_space c Hp)).
  cbn. apply andb_true_r.
Qed.

Lemma occurs_in_app_r p s t : occurs_in p s -> occurs_in p (s +:+ t).
Proof.
  intros (pre & post & ->). exists pre, (post +:+ t). rewrite !app_assoc_str. reflexivity.
Qed.

Lemma addClass_strategy_adds cn c :
  plain c = true -> hasClass_strategy (addClass_strategy cn c) c = true.
Proof.
  intros Hp. unfold addClass_strategy. rewrite (hasClass_single cn c Hp).
  destruct (hasClass_strategy cn c) eqn:E; cbn [negb]; [exact E|].
  unfold hasClass_strategy. apply found_spec.
  exists (Selector.replace_rclass (" " +:+ cn)), EmptyString.
  rewrite app_empty_r.
  replace (" " +:+ (cn +:+ " " +:+ c) +:+ " ") with ((" " +:+ cn) +:+ (" " +:+ c +:+ " "))
    by (rewrite !app_assoc_str; reflexivity).
  rewrite replace_rclass_app. f_equal.
  rewrite !replace_rclass_app, (replace_rclass_plain c Hp). reflexivity.
Qed.

Lemma addClass_strategy_keeps cn c d :
  hasClass_strategy cn d = true -> hasClass_strategy (addClass_strategy cn c) d = true.
Proof.
  intros Hd. unfold addClass_strategy. destruct (negb (hasClass cn c)); [|exact Hd].
  unfold hasClass_strategy in *. apply found_spec. apply found_spec in Hd.
  replace (" " +:+ (cn +:+ " " +:+ c) +:+ " ") with ((" " +:+ cn +:+ " ") +:+ (c +:+ " "))
    by (rewrite !app_assoc_str; reflexivity).
  rewrite replace_rclass_app. apply occurs_in_app_r. exact Hd.
Qed.

Lemma addClass_fold_keeps l : forall cn d,
  hasClass_strategy cn d = true ->
  hasClass_strategy (fold_left addClass_strategy l cn) d = true.
Proof.
  induction l as [|c l IH]; intros cn d H; [exact H|].
  cbn [fold_left]. apply IH, addClass_strategy_keeps, H.
Qed.

Lemma addClass_fold_adds l : forall cn,
  forallb plain l = true ->
  forallb (hasClass_strategy (fold_left addClass_strategy l cn)) l = true.
Proof.
  induction l as [|c l IH]; intros cn Hp; [reflexivity|].
  cbn [forallb] in Hp. apply andb_true_iff in Hp as [Hc Hl].
  cbn [fold_left forallb]. rewrite (IH _ Hl), andb_true_r.
  apply addClass_fold_keeps, addClass_strategy_adds, Hc.
Qed.

(** After [addClass(names)], [hasClass(names)] is true, and every class
    the element had before it still has. *)
Theorem addClass_then_hasClass (cn names d : string) :
  forallb plain (split " " names) = true ->
  hasClass (addClass cn names) names = true
  /\ (hasClass_strategy cn d = true -> hasClass_strategy (addClass cn names) d = true).
Proof.
  intros Hp. split.
  - rewrite hasClass_forallb. unfold addClass. apply addClass_fold_adds, Hp.
  - intros Hd. unfold addClass. apply addClass_fold_keeps, Hd.
Qed.

Lemma addClass_then_hasClass_witness :
  hasClass (addClass "menu" "open wide") "open wide" = true
  /\ (hasClass_strategy "menu" "menu" = true ->
      hasClass_strategy (addClass "menu" "open wide") "menu" = true).
Proof. apply (addClass_then_hasClass "menu" "open wide" "menu"). reflexivity. Defined.

(** [addClass] of a class the element has leaves [className] as it is. *)
Theorem addClass_present_unchanged (cn c : string) :
  plain c = true -> hasClass cn c = true -> addClass cn c = cn.
Proof.
  intros Hp Hc. unfold addClass.
  rewrite (split_without_separator _ _ (plain_no_space c Hp)). cbn.
  unfold addClass_strategy. rewrite Hc. reflexivity.
Qed.

Lemma addClass_present_unchanged_witness : addClass "menu open" "open" = "menu open".
Proof. apply (addClass_present_unchanged "menu open" "open"); reflexivity. Defined.

Lemma length_app_str a b : String.length (a +:+ b) = (String.length a + String.length b)%nat.
Proof. induction a as [|c a IH]; [reflexivity|]. rewrite app_cons. cbn. rewrite IH. reflexivity. Qed.

(** [toggleClass(c)] appends the class when the element lacks it and
    removes it, as [removeClass(c)] does, when the element has it. *)
Theorem toggleClass_flips (cn c : string) :
  plain c = true ->
  toggleClass cn c = if hasClass cn c then removeClass cn c else cn +:+ " " +:+ c.
Proof.
  intros Hp. unfold toggleClass.
  rewrite (split_without_separator _ _ (plain_no_space c Hp)). cbn [fold_left].
  unfold toggleClass_strategy, addClass.
  rewrite (split_without_separator _ _ (plain_no_space c Hp)). cbn [fold_left].
  unfold addClass_strategy. destruct (hasClass cn c); cbn [negb].
  - rewrite String.eqb_refl. reflexivity.
  - destruct (String.eqb_spec cn (cn +:+ " " +:+ c)) as [E|_]; [|reflexivity].
    apply (f_equal String.length) in E. rewrite !length_app_str in E. cbn in E. lia.
Qed.

Lemma toggleClass_flips_witness :
  toggleClass "menu" "open" = if hasClass "menu" "open" then removeClass "menu" "open"
                              else "menu" +:+ " " +:+ "open".
Proof. apply (toggleClass_flips "menu" "open"). reflexivity. Defined.

Lemma replace_first_unfold pat rep s :
  replace_first pat rep s
  = if String.prefix pat s then rep +:+ drop_chars (String.length pat) s
    else match s with
         | EmptyString => EmptyString
         | String c s' => String c (replace_first pat rep s')
         end.
Proof. destruct s; reflexivity. Qed.

Lemma drop_chars_app a b : drop_chars (String.length a) (a +:+ b) = b.
Proof. induction a as [|c a IH]; [reflexivity|]. rewrite app_cons. cbn. exact IH. Qed.

Lemma prefix_app a b : String.prefix a (a +:+ b) = true.
Proof. apply prefix_spec. exists b. reflexivity. Qed.

(** When the pattern does not occur before position [length a], the
    occurrence behind [a] is the one that is replaced. *)
Lemma replace_first_at pat rep a b :
  (forall pre post, a +:+ pat +:+ b = pre +:+ pat +:+ post ->
     (String.length a <= String.length pre)%nat) ->
  replace_first pat rep (a +:+ pat +:+ b) = a +:+ rep +:+ b.
Proof.
  induction a as [|c a IH]; intros Hfirst.
  - rewrite !app_empty_l, replace_first_unfold, prefix_app, drop_chars_app. reflexivity.
  - rewrite replace_first_unfold.
    destruct (String.prefix pat (String c a +:+ pat +:+ b)) eqn:Hp.
    + apply prefix_spec in Hp as [post Hp].
      specialize (Hfirst EmptyString post Hp). cbn in Hfirst. lia.
    + rewrite !app_cons. f_equal. apply IH. intros pre post H.
      specialize (Hfirst (String c pre) post). rewrite !app_cons in Hfirst.
      rewrite H in Hfirst. specialize (Hfirst eq_refl). cbn in Hfirst. lia.
Qed.

Lemma app_eq_app_str u : forall v u' v',
  u +:+ v = u' +:+ v' ->
  exists w, (u = u' +:+ w /\ v' = w +:+ v) \/ (u' = u +:+ w /\ v = w +:+ v').
Proof.
  induction u as [|c u IH]; intros v u' v' H.
  - exists u'. right. split; [reflexivity|exact H].
  - destruct u' as [|d u'].
    + exists (String c u). left. split; [reflexivity|]. symmetry. exact H.
    + rewrite !app_cons in H. injection H as -> H.
      destruct (IH v u' v' H) as [w [[-> ->]|[-> ->]]]; exists w; [left|right];
        split; reflexivity.
Qed.

Lemma proper_prefix_no_space c : forall w post,
  contains_char " " c = false ->
  c +:+ " " = w +:+ post -> post <> EmptyString -> contains_char " " w = false.
Proof.
  induction c as [|x c IH]; intros w post Hc H Hpost.
  - destruct w as [|y w]; [reflexivity|]. rewrite app_empty_l, app_cons in H.
    injection H as _ H. destruct w; [|discriminate]. rewrite app_empty_l in H. congruence.
  - destruct w as [|y w]; [reflexivity|]. rewrite !app_cons in H. injection H as <- H.
    cbn in Hc |- *. apply orb_false_iff in Hc as [Hx Hc]. rewrite Hx.
    exact (IH w post Hc H Hpost).
Qed.

Lemma ends_with a s : forall b w,
  a +:+ String s EmptyString = b +:+ w -> w <> EmptyString ->
  exists w', w = w' +:+ String s EmptyString.
Proof.
  induction a as [|x a IH]; intros b w H Hw.
  - destruct b as [|y b].
    + exists EmptyString. symmetry. exact H.
    + rewrite app_empty_l, app_cons in H. injection H as _ H.
      destruct b; [|discriminate]. rewrite app_empty_l in H. congruence.
  - destruct b as [|y b].
    + exists (String x a). symmetry. exact H.
    + rewrite !app_cons in H. injection H as _ H. exact (IH b w H Hw).
Qed.

Lemma contains_char_app ch a b :
  contains_char ch (a +:+ b) = contains_char ch a || contains_char ch b.
Proof.
  induction a as [|c a IH]; [reflexivity|].
  rewrite app_cons. cbn [contains_char]. rewrite IH, orb_assoc. reflexivity.
Qed.

Lemma app_inv_tail_str a b c : a +:+ c = b +:+ c -> a = b.
Proof.
  revert b. induction a as [|x a IH]; intros [|y b] H.
  - reflexivity.
  - exfalso. rewrite app_empty_l, app_cons in H. apply (f_equal String.length) in H.
    cbn [String.length] in H. rewrite length_app_str in H. lia.
  - exfalso. rewrite app_empty_l, app_cons in H. apply (f_equal String.length) in H.
    cbn [String.length] in H. rewrite length_app_str in H. lia.
  - rewrite !app_cons in H. injection H as -> H. rewrite (IH b H). reflexivity.
Qed.

(** The padded name appended by [addClass] is the first occurrence when
    the element did not have the class. *)
Lemma appended_is_first A c pre post :
  contains_char " " c = false ->
  ~ occurs_in (" " +:+ c +:+ " ") (A +:+ " ") ->
  A +:+ (" " +:+ c +:+ " ") +:+ EmptyString = pre +:+ (" " +:+ c +:+ " ") +:+ post ->
  (String.length A <= String.length pre)%nat.
Proof.
  intros Hc Hno H. rewrite app_empty_r in H.
  assert (H' : (A +:+ " ") +:+ (c +:+ " ") = (pre +:+ " " +:+ c +:+ " ") +:+ post)
    by (rewrite !app_assoc_str; rewrite !app_assoc_str in H; exact H).
  destruct (app_eq_app_str _ _ _ _ H') as [w [[Hu _]|[Hu Hv]]].
  - exfalso. apply Hno. exists pre, w. rewrite Hu, !app_assoc_str. reflexivity.
  - destruct post as [|p post].
    + rewrite app_empty_r in Hv. subst w.
      assert (pre = A).
      { apply (app_inv_tail_str pre A (" " +:+ c +:+ " ")).
        rewrite Hu, !app_assoc_str. reflexivity. }
      subst. lia.
    + exfalso. pose proof (proper_prefix_no_space c w (String p post) Hc Hv ltac:(discriminate)) as Hw.
      destruct w as [|y w].
      * apply Hno. exists pre, EmptyString. rewrite app_empty_r in Hu |- *.
        rewrite <- Hu, ?app_assoc_str. reflexivity.
      * assert (Hend : (pre +:+ " " +:+ c) +:+ String " " EmptyString
                       = (A +:+ " ") +:+ String y w)
          by (rewrite <- Hu, !app_assoc_str; reflexivity).
        destruct (ends_with _ _ _ _ Hend ltac:(discriminate)) as [w' Hw'].
        rewrite Hw', contains_char_app in Hw. cbn in Hw.
        rewrite orb_true_r in Hw. discriminate.
Qed.

Lemma norm_pad cn :
  Selector.replace_rclass (" " +:+ cn +:+ " ") = Selector.replace_rclass (" " +:+ cn) +:+ " ".
Proof. rewrite !replace_rclass_app, app_assoc_str. reflexivity. Qed.

Lemma norm_added cn c :
  plain c = true ->
  Selector.replace_rclass (" " +:+ (cn +:+ " " +:+ c) +:+ " ")
  = Selector.replace_rclass (" " +:+ cn) +:+ (" " +:+ c +:+ " ") +:+ EmptyString.
Proof.
  intros Hp. rewrite !replace_rclass_app, (replace_rclass_plain c Hp), !app_assoc_str.
  rewrite app_empty_r. reflexivity.
Qed.

(** [addClass(c)] followed by [removeClass(c)] on an element that did not
    have the class gives back its class names, with the separators
    turned into spaces and the white space at both ends trimmed. *)
Theorem addClass_removeClass_restores (cn c : string) :
  plain c = true -> hasClass cn c = false ->
  removeClass (addClass cn c) c = trim (Selector.replace_rclass (" " +:+ cn +:+ " ")).
Proof.
  intros Hp Hc. pose proof (plain_no_space c Hp) as Hsp.
  unfold removeClass, addClass. rewrite (split_without_separator _ _ Hsp). cbn [fold_left].
  unfold addClass_strategy. rewrite Hc. cbn [negb]. unfold removeClass_strategy. f_equal.
  rewrite (hasClass_single cn c Hp) in Hc. unfold hasClass_strategy in Hc.
  rewrite norm_pad in Hc.
  assert (Hno : ~ occurs_in (" " +:+ c +:+ " ") (Selector.replace_rclass (" " +:+ cn) +:+ " ")).
  { intros Ho. apply found_spec in Ho. congruence. }
  rewrite (norm_added cn c Hp), norm_pad. apply replace_first_at.
  intros pre post H. exact (appended_is_first _ c pre post Hsp Hno H).
Qed.

Lemma addClass_removeClass_restores_witness :
  removeClass (addClass "menu  wide" "open") "open"
  = trim (Selector.replace_rclass (" " +:+ "menu  wide" +:+ " ")).
Proof. apply (addClass_removeClass_restores "menu  wide" "open"); reflexivity. Defined.

Lemma not_ws_plain_char x :
  is_ws x = false -> negb (Ascii.eqb x " ") && negb (Selector.rclass_char x) = true.
Proof. destruct x as [[] [] [] [] [] [] [] []]; vm_compute; congruence. Qed.

Lemma no_ws_plain c : all_chars (fun ch => negb (is_ws ch)) c = true -> plain c = true.
Proof.
  unfold plain. induction c as [|x c IH]; [reflexivity|]. cbn [all_chars]. intros H.
  apply andb_true_iff in H as [Hx H]. apply negb_true_iff in Hx.
  rewrite (not_ws_plain_char x Hx), (IH H). reflexivity.
Qed.

Lemma trim_right_no_ws c :
  all_chars (fun ch => negb (is_ws ch)) c = true -> trim_right c = c.
Proof.
  induction c as [|x c IH]; [reflexivity|]. cbn [all_chars trim_right]. intros H.
  apply andb_true_iff in H as [Hx H]. apply negb_true_iff in Hx.
  rewrite (IH H), Hx. destruct c; reflexivity.
Qed.

Lemma trim_right_space s : trim_right (s +:+ " ") = trim_right s.
Proof.
  induction s as [|x s IH]; [reflexivity|].
  rewrite app_cons. cbn [trim_right]. rewrite IH. reflexivity.
Qed.

Lemma trim_padded c :
  all_chars (fun ch => negb (is_ws ch)) c = true -> trim (" " +:+ c +:+ " ") = c.
Proof.
  intros H. destruct c as [|x c]; [reflexivity|].
  unfold trim. rewrite (app_cons " " EmptyString), app_empty_l. cbn [trim_left].
  change (is_ws " ") with true. cbn iota.
  assert (Hl : trim_left (String x c +:+ " ") = String x c +:+ " ").
  { rewrite app_cons. cbn [trim_left].
    cbn [all_chars] in H. apply andb_true_iff in H as [Hx _].
    apply negb_true_iff in Hx. rewrite Hx. reflexivity. }
  rewrite Hl, trim_right_space. apply trim_right_no_ws, H.
Qed.

(** [removeClass] replaces the first occurrence only: when the class
    attribute names a class twice in a row, the element still has the
    class after [removeClass]. *)
Theorem removeClass_leaves_duplicate (c : string) :
  all_chars (fun ch => negb (is_ws ch)) c = true ->
  removeClass (c +:+ " " +:+ c) c = c /\ hasClass c c = true.
Proof.
  intros Hn. pose proof (no_ws_plain c Hn) as Hp. pose proof (plain_no_space c Hp) as Hsp.
  split.
  - unfold removeClass. rewrite (split_without_separator _ _ Hsp). cbn [fold_left].
    unfold removeClass_strategy.
    replace (Selector.replace_rclass (" " +:+ (c +:+ " " +:+ c) +:+ " "))
      with ((" " +:+ c +:+ " ") +:+ (c +:+ " ")).
    + rewrite replace_first_unfold, prefix_app, drop_chars_app. apply trim_padded, Hn.
    + rewrite !replace_rclass_app, (replace_rclass_plain c Hp), !app_assoc_str. reflexivity.
  - rewrite (hasClass_single c c Hp). unfold hasClass_strategy. apply found_spec.
    exists EmptyString, EmptyString.
    rewrite !replace_rclass_app, (replace_rclass_plain c Hp), app_empty_l, app_empty_r.
    reflexivity.
Qed.

Lemma removeClass_leaves_duplicate_witness :
  removeClass ("open" +:+ " " +:+ "open") "open" = "open" /\ hasClass "open" "open" = true.
Proof. apply (removeClass_leaves_duplicate "open"). reflexivity. Defined.

End ClassFacts.

Section TraverseFacts.
Import Traverse.
Variable native : Element -> string -> bool.

(** [next], [prev], [parent], [firstChild], [lastChild] return the first
    node of what the [multiple] form of the same walk collects ([nextAll]
    for [next], [prevAll] for [prev]), and the null element when it
    collects nothing; the [multiple] form collects the accepted nodes in
    the order of the walk. *)
Theorem walk_first_is_head_of_walk_all (m : option Selector.Matcher) (chain : list Link) :
  walk_first native m chain = head (walk_all native m chain)
  /\ walk_all native m chain = List.filter (accepts native m) chain.
Proof.
  induction chain as [|it rest [IH1 IH2]]; [split; reflexivity|].
  cbn [walk_first walk_all List.filter]. destruct (accepts native m it).
  - split; [reflexivity|]. rewrite IH2. reflexivity.
  - split; [exact IH1|exact IH2].
Qed.

(** [firstChild(selector)] follows [it = it.firstChild]: it never looks
    at a later child.  When the first child node is a text node it
    returns the null element, whatever element children follow (which
    [children()] does return on a W3C host); when the first child is an
    element that the selector rejects, it goes down and returns what
    [firstChild(selector)] of that child returns. *)
Theorem firstChild_follows_first_child
    (tag : string) (attrs : list (string * string)) (c : Create.HNode)
    (rest rest' : list Create.HNode) (selector : option string) :
  firstChild native (Create.HElem tag attrs (c :: rest)) selector
  = firstChild native (Create.HElem tag attrs (c :: rest')) selector
  /\ (Create.is_element c = false ->
      firstChild native (Create.HElem tag attrs (c :: rest)) selector = None
      /\ children native true (Create.HElem tag attrs (c :: rest)) None
         = map link_of (List.filter Create.is_element rest))
  /\ (accepts native (matcher_of selector) (link_of c) = false ->
      firstChild native (Create.HElem tag attrs (c :: rest)) selector
      = firstChild native c selector).
Proof.
  split; [reflexivity|]. split.
  - intros Hc. destruct c as [t a cs|text]; [discriminate|].
    split; reflexivity.
  - intros Hc. unfold firstChild. cbn [firstChild_chain map walk_first].
    rewrite Hc. reflexivity.
Qed.

Lemma filter_indexed_none {A} (l : list A) :
  filter_indexed (fun _ _ => false) l = [].
Proof.
  unfold filter_indexed. generalize 0%nat.
  induction l as [|x l IH]; intros n; [reflexivity|].
  cbn [length seq combine List.filter fst snd]. apply IH.
Qed.

(** On a host that is not W3C compliant [children] returns no element,
    whatever the node and the selector: the filter meant to drop the
    comment nodes reads [nodeType] of the index and drops every child. *)
Theorem children_empty_without_w3c (n : Create.HNode) (selector : option string) :
  children native false n selector = [].
Proof.
  destruct n as [tag attrs cs|text]; [|reflexivity].
  unfold children, ie_children_test. rewrite filter_indexed_none.
  destruct (matcher_of selector); reflexivity.
Qed.

End TraverseFacts.

Section SerializeFacts.
Import Serialize.
Variable encodeURIComponent : string -> string.

Lemma push_selected_named name options : forall acc,
  push_selected encodeURIComponent name options (Some acc)
  = Normal (Some (acc ++ map (fun o => makePair encodeURIComponent name
                                         (if has_value o then c_value o else c_text o))
                              (List.filter selected options))%list).
Proof.
  induction options as [|o rest IH]; intros acc; cbn [push_selected List.filter map].
  - rewrite app_nil_r. reflexivity.
  - destruct (selected o); cbn [push map]; rewrite IH; [|reflexivity].
    rewrite <- app_assoc. reflexivity.
Qed.

Lemma push_selected_undefined name options :
  push_selected encodeURIComponent name options None = Normal None
  \/ push_selected encodeURIComponent name options None = Throw TypeError.
Proof.
  induction options as [|o rest IH]; cbn [push_selected]; [left; reflexivity|].
  destruct (selected o); [right; reflexivity|exact IH].
Qed.

Lemma collect_named field acc :
  named field = true ->
  collect encodeURIComponent (Some acc) field
  = Normal (Some (acc ++ pairs_of encodeURIComponent field)%list).
Proof.
  unfold named, collect, pairs_of. intros ->.
  destruct (type_in (f_type field) ["select-one"; "select-multiple"]);
    [apply push_selected_named|].
  destruct (_ || _); [rewrite app_nil_r; reflexivity|].
  destruct (_ && _); [rewrite app_nil_r; reflexivity|reflexivity].
Qed.

Lemma collect_undefined field :
  collect encodeURIComponent None field = Normal None
  \/ collect encodeURIComponent None field = Throw TypeError.
Proof.
  unfold collect. destruct (negb _); [|left; reflexivity].
  destruct (type_in (f_type field) ["select-one"; "select-multiple"]);
    [apply push_selected_undefined|].
  destruct (_ || _); [left; reflexivity|].
  destruct (_ && _); [left; reflexivity|right; reflexivity].
Qed.

Lemma reduce_undefined fields :
  reduce encodeURIComponent fields None = Normal None
  \/ reduce encodeURIComponent fields None = Throw TypeError.
Proof.
  induction fields as [|f rest IH]; cbn [reduce]; [left; reflexivity|].
  destruct (collect_undefined f) as [-> | ->]; [exact IH|right; reflexivity].
Qed.

Lemma reduce_named fields : forall acc,
  forallb named fields = true ->
  reduce encodeURIComponent fields (Some acc)
  = Normal (Some (acc ++ flat_map (pairs_of encodeURIComponent) fields)%list).
Proof.
  induction fields as [|f rest IH]; intros acc H; cbn [reduce flat_map].
  - rewrite app_nil_r. reflexivity.
  - cbn [forallb] in H. apply andb_true_iff in H as [Hf H].
    rewrite (collect_named f acc Hf), (IH _ H), <- app_assoc. reflexivity.
Qed.

Lemma reduce_unnamed fields : forall acc,
  forallb named fields = false ->
  reduce encodeURIComponent fields (Some acc) = Normal None
  \/ reduce encodeURIComponent fields (Some acc) = Throw TypeError.
Proof.
  induction fields as [|f rest IH]; intros acc H; [discriminate|].
  cbn [forallb] in H. cbn [reduce]. destruct (named f) eqn:Hf.
  - rewrite (collect_named f acc Hf). apply IH. exact H.
  - unfold collect. unfold named in Hf. rewrite Hf. apply reduce_undefined.
Qed.

(** [toString] of a form succeeds exactly when every member of
    [elements] has a name: then it joins, in field order, the pairs of
    the selected options, of the checked boxes and of the other controls
    (buttons, file inputs and fieldsets give none); a single field
    without a name makes it throw a [TypeError]. *)
Theorem toString_needs_named_fields (fields : list Field) :
  toString encodeURIComponent (Form fields)
  = if forallb named fields
    then Normal (plus_for_20 (join "&" (flat_map (pairs_of encodeURIComponent) fields)))
    else Throw TypeError.
Proof.
  unfold toString. destruct (forallb named fields) eqn:H.
  - rewrite (reduce_named fields [] H). reflexivity.
  - destruct (reduce_unnamed fields [] H) as [-> | ->]; reflexivity.
Qed.

End SerializeFacts.

Section FindReturnFacts.
Import Find FindReturn.
Variable N : Type.
Variable tmpId : string.
Variable byClass : bool.
Variable getElementById : string -> option N.
Variable attached_with_id : N -> string -> bool.
Variable contains : N -> bool.
Variable getElementsByTagName : Root -> string -> list N.
Variable getElementsByClassName : Root -> string -> list N.
Variable query : Root -> bool -> bool -> string -> Completion (list N).

(** A lookup by id that finds no element, or one that is detached, has
    another id or lies outside the root: [find] returns the null element
    and [findAll] throws a [TypeError] (it builds a collection from
    [undefined]); the generic query is not tried and the root is not
    touched. *)
Theorem find_by_id_miss (r : Root) (m : string) :
  ident m = true ->
  match getElementById m with
  | Some elem => attached_with_id elem m && (is_document r || contains elem) = false
  | None => True
  end ->
  let run := find N tmpId byClass getElementById attached_with_id contains
               getElementsByTagName getElementsByClassName query r (VStr ("#" +:+ m)) in
  returned false (run false) = Normal RNull
  /\ returned true (run true) = Throw TypeError
  /\ snd (run false) = r /\ snd (run true) = r.
Proof.
  intros Hid Hmiss. cbn zeta. unfold find.
  change ("#" +:+ m) with (String "#" m). cbn [rquickExpr_exec Ascii.eqb Bool.eqb].
  rewrite Hid. unfold returned, find_quick. cbn [fst snd].
  destruct (getElementById m) as [elem|]; [rewrite Hmiss|]; repeat split.
Qed.

End FindReturnFacts.

Lemma find_by_id_miss_witness :
  let run := Find.find nat "DOM1" true (fun _ => None) (fun _ _ => true) (fun _ => true)
               (fun _ _ => []) (fun _ _ => []) Find.query_none Find.Document
               (VStr ("#" +:+ "main")) in
  FindReturn.returned false (run false) = Normal FindReturn.RNull
  /\ FindReturn.returned true (run true) = Throw TypeError
  /\ snd (run false) = Find.Document /\ snd (run true) = Find.Document.
Proof.
  apply (find_by_id_miss nat "DOM1" true (fun _ => None) (fun _ _ => true) (fun _ => true)
           (fun _ _ => []) (fun _ _ => []) Find.query_none Find.Document "main").
  - reflexivity.
  - exact I.
Defined.

Section FragmentFacts.
Import Fragment.

Lemma move_each_throws {A} steps : forall i (live moved : list A),
  length live = steps -> (1 <= steps)%nat -> (1 <= i)%nat ->
  move_each steps i live moved = Throw TypeError.
Proof.
  induction steps as [|steps IH]; intros i live moved Hlen Hs Hi; [lia|].
  cbn [move_each]. destruct (nth_error live i) as [x|] eqn:E; [|reflexivity].
  assert (Hlt : (i < length live)%nat) by (apply nth_error_Some; congruence).
  apply IH; try lia.
  rewrite length_app, length_firstn, length_skipn. lia.
Qed.

(** [sandbox.fragment(html)] moves the nodes out of the live collection
    it iterates over: it returns a fragment for markup with no or one
    top-level element and throws for markup with two or more. *)
Theorem fragment_takes_one_element (html : string) :
  fragment html
  = if (length (Create.sandbox_parse html) <=? 1)%nat
    then Normal (Create.sandbox_parse html)
    else Throw TypeError.
Proof.
  unfold fragment. destruct (Create.sandbox_parse html) as [|x [|y l]]; try reflexivity.
  change (move_each (S (length l)) 1 (y :: l) ([] ++ [x])%list = Throw TypeError).
  apply move_each_throws; cbn [length]; lia.
Qed.

End FragmentFacts.

Section VisibilityFacts.
Import Props Visibility.

Lemma hidden_hook caps :
  hidden_in_htmlEl caps = false ->
  propHooks caps !! "hidden" = Some (mkPropHook None (Some hidden_set)).
Proof. destruct caps as [[] []]; [discriminate| |discriminate|]; intros _; reflexivity. Qed.

(** On a host without a native [hidden] property: after [hide()] the
    node has the [hidden] attribute and [get("hidden")] is [true]; after
    [show()] the attribute is gone and [get("hidden")] is [null]. *)
Theorem hide_show_get (caps : Caps) (ToString : Value -> string)
    (call : nat -> Value -> Completion Value) (n : Node) :
  hidden_in_htmlEl caps = false ->
  (exists n1, hide caps ToString call n = (Normal tt, n1)
     /\ get caps n1 (VStr "hidden") = Normal (VBool true)
     /\ hasAttribute (el n1) "hidden" = true)
  /\ (exists n2, show caps ToString call n = (Normal tt, n2)
     /\ get caps n2 (VStr "hidden") = Normal VNull
     /\ hasAttribute (el n2) "hidden" = false).
Proof.
  intros Hc. pose proof (hidden_hook caps Hc) as Hh.
  unfold hide, show, set, set_string. cbn [split Ascii.eqb Bool.eqb forEach].
  change (split " " "hidden") with ["hidden"]. cbn [forEach]. unfold set_one. rewrite Hh.
  cbn [hook_set run_setter]. split; eexists; (split; [reflexivity|]).
  - unfold get. rewrite Hh. cbn [hook_get mbind option_bind]. unfold read_direct. cbn [props].
    rewrite lookup_insert_eq. cbn. split; [reflexivity|].
    unfold hasAttribute, setAttribute. cbn. rewrite lookup_insert_eq. reflexivity.
  - unfold get. rewrite Hh. cbn [hook_get mbind option_bind]. unfold read_direct. cbn [props].
    rewrite lookup_insert_eq. cbn [default truthy el].
    unfold getAttribute, hasAttribute, removeAttribute. cbn [attributes].
    rewrite lookup_delete_eq. split; reflexivity.
Qed.

Lemma hide_show_get_witness :
  let n := mkNode (mkElement "DIV" {[ "hidden" := "hidden" ]}) ∅ ∅ in
  (exists n1, hide (mkCaps true false) (fun _ => "x") (fun _ v => Normal v) n = (Normal tt, n1)
     /\ get (mkCaps true false) n1 (VStr "hidden") = Normal (VBool true)
     /\ hasAttribute (el n1) "hidden" = true)
  /\ (exists n2, show (mkCaps true false) (fun _ => "x") (fun _ v => Normal v) n = (Normal tt, n2)
     /\ get (mkCaps true false) n2 (VStr "hidden") = Normal VNull
     /\ hasAttribute (el n2) "hidden" = false).
Proof.
  apply (hide_show_get (mkCaps true false) (fun _ => "x") (fun _ v => Normal v)
           (mkNode (mkElement "DIV" {[ "hidden" := "hidden" ]}) ∅ ∅)).
  reflexivity.
Defined.

End VisibilityFacts.

Section MoreDataFacts.
Import Data.

Lemma fold_insert_other k (pairs : list (string * Value)) : forall (d : gmap string Value),
  ~ In k (map fst pairs) ->
  fold_left (fun d kv => <[fst kv := snd kv]> d) pairs d !! k = d !! k.
Proof.
  induction pairs as [|[k' v'] pairs IH]; intros d Hk; [reflexivity|].
  cbn [fold_left]. rewrite IH by (intros H; apply Hk; right; exact H).
  cbn. apply lookup_insert_ne. intros ->. apply Hk. left. reflexivity.
Qed.

Lemma fold_insert_in k v (pairs : list (string * Value)) : forall (d : gmap string Value),
  NoDup (map fst pairs) -> In (k, v) pairs ->
  fold_left (fun d kv => <[fst kv := snd kv]> d) pairs d !! k = Some v.
Proof.
  induction pairs as [|[k' v'] pairs IH]; intros d Hnd Hin; [destruct Hin|].
  cbn [map fst] in Hnd. apply NoDup_cons in Hnd as [Hk' Hnd].
  cbn [fold_left]. destruct Hin as [[= -> ->]|Hin].
  - rewrite fold_insert_other by (rewrite <- list_elem_of_In; exact Hk').
    cbn. apply lookup_insert_eq.
  - apply IH; assumption.
Qed.

Lemma setData_each_plain (host : Host) (pairs : list (string * Value)) : forall d,
  Forall (fun kv => inherited host (proto d) (fst kv) = None) pairs ->
  setData_each host pairs d
  = (Normal tt,
     mkStore (fold_left (fun o kv => <[fst kv := snd kv]> o) pairs (own d)) (proto d)).
Proof.
  induction pairs as [|kv pairs IH]; intros d Hall; [destruct d; reflexivity|].
  apply Forall_cons in Hall as [Hkv Hall]. cbn [setData_each fold_left].
  rewrite (data_put_plain host (fst kv) (snd kv) d Hkv).
  rewrite IH by exact Hall. reflexivity.
Qed.

(** [setData] with an object none of whose keys the store inherits
    stores every pair: it returns normally, afterwards [getData] of one
    of the keys returns the value paired with it, without looking at the
    attributes, and a key the object does not name keeps what the store
    held for it. *)
Theorem setData_object_then_getData (host : Host) (pairs : list (string * Value))
    (d : Store) (node : Element) (k : string) (v : Value) :
  NoDup (map fst pairs) ->
  Forall (fun kv => inherited host (proto d) (fst kv) = None) pairs ->
  let r := setData host (VObj pairs) VUndefined d in
  fst r = Normal tt
  /\ (In (k, v) pairs -> is_undefined v = false ->
      getData host (VStr k) node (snd r) = (Normal v, snd r))
  /\ (~ In k (map fst pairs) -> data_get host (snd r) k = data_get host d k).
Proof.
  intros Hnd Hall. cbn zeta. cbn [setData]. rewrite (setData_each_plain host pairs d Hall).
  cbn [fst snd]. split; [reflexivity|]. split.
  - intros Hin Hv. apply getData_cached; [|exact Hv].
    unfold data_get. cbn [own]. rewrite (fold_insert_in k v pairs (own d) Hnd Hin).
    reflexivity.
  - intros Hk. unfold data_get. cbn [own proto].
    rewrite (fold_insert_other k pairs (own d) Hk). reflexivity.
Qed.

Lemma setData_object_then_getData_witness :
  let r := setData host_browser (VObj [("a", VStr "b"); ("c", VNum 4)]) VUndefined empty_store in
  fst r = Normal tt
  /\ (In ("c", VNum 4) [("a", VStr "b"); ("c", VNum 4)] -> is_undefined (VNum 4) = false ->
      getData host_browser (VStr "c") (mkElement "DIV" {[ "data-c" := "x" ]}) (snd r)
      = (Normal (VNum 4), snd r))
  /\ (~ In "c" (map fst [("a", VStr "b"); ("c", VNum 4)]) ->
      data_get host_browser (snd r) "c" = data_get host_browser empty_store "c").
Proof.
  apply (setData_object_then_getData host_browser [("a", VStr "b"); ("c", VNum 4)] empty_store
           (mkElement "DIV" {[ "data-c" := "x" ]}) "c" (VNum 4)).
  - apply NoDup_cons. split; [vm_compute; intros H; inversion H; subst;
      match goal with H' : _ ∈ [] |- _ => inversion H' end|].
    apply NoDup_cons. split; [intros H; inversion H|apply NoDup_nil; exact I].
  - repeat constructor.
Defined.

(** An object with an own key [__proto__] (as [JSON.parse] makes them)
    is not stored pair by pair: the value under that key becomes the
    prototype of [_data], and its properties show through [getData]. *)
Example setData_object_with_proto_key :
  let r := setData host_browser (VObj [("__proto__", VObj [("role", VStr "menu")])])
             VUndefined empty_store in
  fst r = Normal tt
  /\ own (snd r) = ∅
  /\ fst (getData host_browser (VStr "role") (mkElement "DIV" ∅) (snd r)) = Normal (VStr "menu").
Proof. vm_compute. repeat split. Qed.

End MoreDataFacts.

Section StyleFacts.
Import Style.
Variable in_computed : string -> bool.







End StyleFacts.

Example cssHooks_vendor :
  Style.cssHooks (fun _ => false) ["-webkit-transition"; "color"] !! "transition"
  = Some (Style.mkHook (Some "webkitTransition") (Style.set_prop "webkitTransition")).
Proof. reflexivity. Qed.


Section QuickGrammarFacts.
Import Selector QuickGrammar.

Lemma span_app p a : forall rest,
  all_chars p a = true ->
  match rest with EmptyString => true | String c _ => negb (p c) end = true ->
  span p (a +:+ rest) = (a, rest).
Proof.
  induction a as [|x a IH]; intros rest Ha Hrest.
  - rewrite app_empty_l. destruct rest as [|c rest]; [reflexivity|].
    cbn. apply negb_true_iff in Hrest. rewrite Hrest. reflexivity.
  - cbn [all_chars] in Ha. apply andb_true_iff in Ha as [Hx Ha].
    rewrite app_cons. cbn [span]. rewrite Hx, (IH rest Ha Hrest). reflexivity.
Qed.

Lemma span_spec p s : forall a b,
  span p s = (a, b) -> s = a +:+ b /\ all_chars p a = true.
Proof.
  induction s as [|c s IH]; intros a b H; cbn in H.
  - injection H as <- <-. split; reflexivity.
  - destruct (p c) eqn:Hp.
    + destruct (span p s) as [a' b'] eqn:E. injection H as <- <-.
      destruct (IH a' b' eq_refl) as [-> Ha]. split; [reflexivity|].
      cbn. rewrite Hp. exact Ha.
    + injection H as <- <-. split; reflexivity.
Qed.

Lemma word_is_word_dash c : is_word c = true -> is_word_dash c = true.
Proof. unfold is_word_dash. intros ->. reflexivity. Qed.

Lemma opt_group_part lead close o rest :
  opt_ident o = true ->
  boundary lead rest = true ->
  match close with Some cl => is_word_dash cl = false | None => True end ->
  opt_group lead close (part lead close o +:+ rest) = Some (o, rest).
Proof.
  intros Ho Hb Hcl. destruct o as [m|]; cbn [part].
  - cbn [opt_ident] in Ho. unfold ident in Ho. apply andb_true_iff in Ho as [Hne Hm].
    rewrite app_cons. cbn [opt_group]. rewrite Ascii.eqb_refl, app_assoc_str.
    rewrite (span_app is_word_dash m _ Hm).
    + destruct m as [|x m]; [discriminate|].
      destruct close as [cl|]; [|rewrite app_empty_l; reflexivity].
      rewrite app_cons, app_empty_l, Ascii.eqb_refl. reflexivity.
    + destruct close as [cl|].
      * rewrite app_cons. rewrite Hcl. reflexivity.
      * rewrite app_empty_l. destruct rest as [|c rest]; [reflexivity|].
        cbn in Hb. apply andb_true_iff in Hb as [Hb _]. exact Hb.
  - rewrite app_empty_l. destruct rest as [|c rest]; [reflexivity|].
    cbn in Hb |- *. apply andb_true_iff in Hb as [_ Hb].
    apply negb_true_iff in Hb. rewrite Hb. reflexivity.
Qed.

Lemma opt_group_inv lead close s o rest :
  opt_group lead close s = Some (o, rest) ->
  s = part lead close o +:+ rest /\ opt_ident o = true.
Proof.
  unfold opt_group. destruct s as [|c s]; [intros [= <- <-]; split; reflexivity|].
  destruct (Ascii.eqb_spec c lead) as [->|_]; [|intros [= <- <-]; split; reflexivity].
  destruct (span is_word_dash s) as [a b] eqn:E.
  destruct (span_spec _ _ _ _ E) as [-> Ha].
  destruct a as [|x a]; [discriminate|].
  destruct close as [cl|].
  - destruct b as [|c2 b]; [discriminate|].
    destruct (Ascii.eqb_spec c2 cl) as [->|_]; [|discriminate].
    intros [= <- <-]. split; [|exact Ha].
    cbn [part]. rewrite !app_cons, app_assoc_str, app_cons, app_empty_l. reflexivity.
  - intros [= <- <-]. split; [|exact Ha].
    cbn [part]. rewrite !app_cons, app_empty_r. reflexivity.
Qed.

Lemma part_boundary lead close o rest lead' :
  lead <> lead' -> is_word_dash lead = false ->
  boundary lead' rest = true ->
  boundary lead' (part lead close o +:+ rest) = true.
Proof.
  intros Hne Hl Hr. destruct o as [m|]; cbn [part]; [|rewrite app_empty_l; exact Hr].
  rewrite app_cons. cbn. rewrite Hl. cbn.
  destruct (Ascii.eqb_spec lead lead'); [contradiction|reflexivity].
Qed.

(** The selectors that [rquickIs] accepts are exactly the spellings of
    well-formed captures: a selector is accepted with the captures [q]
    if and only if [q] is well formed (the tag a run of word characters,
    every other capture an identifier) and the selector is its tag, then
    [#id], then [[attr]], then [.class], each present or left out. *)
Theorem rquickIs_accepts_exactly (sel : string) (q : Quick) :
  rquickIs_exec sel = Some q <-> well_formed q = true /\ render q = sel.
Proof.
  split.
  - unfold rquickIs_exec. destruct (span is_word sel) as [tag r1] eqn:Et.
    destruct (span_spec _ _ _ _ Et) as [-> Htag].
    destruct (opt_group "#" None r1) as [[id r2]|] eqn:E1; [|discriminate].
    destruct (opt_group_inv _ _ _ _ _ E1) as [-> Hid].
    destruct (opt_group "[" (Some "]"%char) r2) as [[attr r3]|] eqn:E2; [|discriminate].
    destruct (opt_group_inv _ _ _ _ _ E2) as [-> Hattr].
    destruct (opt_group "." None r3) as [[cls r4]|] eqn:E3; [|discriminate].
    destruct (opt_group_inv _ _ _ _ _ E3) as [-> Hcls].
    destruct r4; [|discriminate]. intros [= <-].
    unfold well_formed, render. cbn [q_tag q_id q_attr q_class].
    rewrite Htag, Hid, Hattr, Hcls, app_empty_r. split; reflexivity.
  - intros [Hwf <-]. unfold well_formed in Hwf.
    apply andb_true_iff in Hwf as [Hwf Hcls]. apply andb_true_iff in Hwf as [Hwf Hattr].
    apply andb_true_iff in Hwf as [Htag Hid].
    destruct q as [tag id attr cls]. cbn [q_tag q_id q_attr q_class] in *.
    unfold rquickIs_exec, render. cbn [q_tag q_id q_attr q_class].
    assert (B3' : boundary "[" (part "." None cls) = true).
    { destruct cls as [c|]; reflexivity. }
    assert (B2 : boundary "#" (part "[" (Some "]"%char) attr +:+ part "." None cls) = true).
    { destruct attr as [a|]; [reflexivity|]. cbn [part]. rewrite app_empty_l.
      destruct cls as [c|]; reflexivity. }
    rewrite (span_app is_word tag).
    + rewrite (opt_group_part "#" None id _ Hid B2 I).
      rewrite (opt_group_part "[" (Some "]"%char) attr _ Hattr B3' eq_refl).
      replace (part "." None cls) with (part "." None cls +:+ EmptyString)
        by apply app_empty_r.
      rewrite (opt_group_part "." None cls EmptyString Hcls eq_refl I). reflexivity.
    + exact Htag.
    + destruct id as [i|]; [reflexivity|]. cbn [part]. rewrite app_empty_l.
      destruct attr as [a|]; [reflexivity|]. cbn [part]. rewrite app_empty_l.
      destruct cls as [c|]; reflexivity.
Qed.

End QuickGrammarFacts.
